(** * Verification engine of the medicine-authenticity demo (src/app.jsx)

    A shallow embedding of the token codec ([encodeToken], [decodeToken]),
    the ledger lookup, the duplicate-scan tracker and the recall / expiry
    rules of [handleVerify], together with the platform functions they rest
    on: [btoa] / [atob], [JSON.stringify] / [JSON.parse], [String.prototype.trim]
    and the [Date] constructor. *)

From Stdlib Require Import NArith ZArith String Ascii Lia.
From stdpp Require Import base gmap sets list.

Local Open Scope N_scope.

(** ** JavaScript strings

    A JavaScript string is a finite sequence of UTF-16 code units; [===] on
    two strings compares them code unit by code unit. *)

Definition jsstring := list N.

Definition js (s : string) : jsstring :=
  List.map N_of_ascii (list_ascii_of_string s).

Definition str_eqb (a b : jsstring) : bool := bool_decide (a = b).

(** [String.prototype.trim]: WhiteSpace and LineTerminator code units are
    removed from both ends. *)
Definition isTrimSpace (c : N) : bool :=
  (c =? 9) || (c =? 10) || (c =? 11) || (c =? 12) || (c =? 13) || (c =? 32)
  || (c =? 160) || (c =? 5760) || ((8192 <=? c) && (c <=? 8202))
  || (c =? 8232) || (c =? 8233) || (c =? 8239) || (c =? 8287)
  || (c =? 12288) || (c =? 65279).

Fixpoint trimStart (s : jsstring) : jsstring :=
  match s with
  | c :: r => if isTrimSpace c then trimStart r else s
  | [] => []
  end.

Definition trimEnd (s : jsstring) : jsstring := rev (trimStart (rev s)).

Definition trim (s : jsstring) : jsstring := trimEnd (trimStart s).

(** ** btoa / atob (forgiving base64 of the HTML standard) *)

Module Base64.

Definition alphabet : jsstring :=
  js "ABCDEFGHIJKLMNOPQRSTUVWXYZabcdefghijklmnopqrstuvwxyz0123456789+/".

Definition pad : N := 61.

Definition enc (i : N) : N := nth (N.to_nat i) alphabet 0.

Definition dec (c : N) : option N :=
  if (65 <=? c) && (c <=? 90) then Some (c - 65)
  else if (97 <=? c) && (c <=? 122) then Some (c - 71)
  else if (48 <=? c) && (c <=? 57) then Some (c + 4)
  else if c =? 43 then Some 62
  else if c =? 47 then Some 63
  else None.

(** Three input bytes give four output characters; a final group of one
    or two bytes is padded with [=]. *)
Fixpoint encode (s : jsstring) : jsstring :=
  match s with
  | [] => []
  | [a] => [enc (a / 4); enc ((a mod 4) * 16); pad; pad]
  | [a; b] =>
      [enc (a / 4); enc ((a mod 4) * 16 + b / 16); enc ((b mod 16) * 4); pad]
  | a :: b :: c :: r =>
      enc (a / 4) :: enc ((a mod 4) * 16 + b / 16)
        :: enc ((b mod 16) * 4 + c / 64) :: enc (c mod 64) :: encode r
  end.

(** [btoa] throws InvalidCharacterError ([None]) when a code unit exceeds
    U+00FF. *)
Definition btoa (s : jsstring) : option jsstring :=
  if forallb (fun c => c <=? 255) s then Some (encode s) else None.

Definition isAsciiWhitespace (c : N) : bool :=
  (c =? 9) || (c =? 10) || (c =? 12) || (c =? 13) || (c =? 32).

Definition isPadTail (s : jsstring) : bool :=
  match s with
  | [c] => c =? pad
  | [c; d] => (c =? pad) && (d =? pad)
  | _ => false
  end.

(** Removes the one or two [=] the data ends with. *)
Fixpoint stripPadding (s : jsstring) : jsstring :=
  match s with
  | [] => []
  | c :: r => if isPadTail s then [] else c :: stripPadding r
  end.

Fixpoint sextets (s : jsstring) : option (list N) :=
  match s with
  | [] => Some []
  | c :: r =>
      match dec c, sextets r with
      | Some i, Some v => Some (i :: v)
      | _, _ => None
      end
  end.

(** The 24-bit buffer of the decoder, one group of four sextets at a
    time; a final buffer of 12 bits drops its last four bits, one of 18
    bits its last two. *)
Fixpoint decodeGroups (v : list N) : jsstring :=
  match v with
  | a :: b :: c :: d :: r =>
      let n := ((a * 64 + b) * 64 + c) * 64 + d in
      n / 65536 :: (n / 256) mod 256 :: n mod 256 :: decodeGroups r
  | [a; b; c] =>
      let n := ((a * 64 + b) * 64 + c) / 4 in
      [n / 256; n mod 256]
  | [a; b] => [(a * 64 + b) / 16]
  | _ => []
  end.

(** [atob] throws InvalidCharacterError ([None]) on data that is not
    forgiving-base64. *)
Definition atob (data : jsstring) : option jsstring :=
  let data := List.filter (fun c => negb (isAsciiWhitespace c)) data in
  let data :=
    if N.of_nat (length data) mod 4 =? 0 then stripPadding data else data in
  if N.of_nat (length data) mod 4 =? 1 then None
  else
    match sextets data with
    | Some v => Some (decodeGroups v)
    | None => None
    end.

End Base64.

(** ** JSON values, JSON.parse and JSON.stringify *)

#[warnings="-register-all"] Inductive json : Type :=
| JNull
| JBool (b : bool)
| JNumber (neg : bool) (mant : N) (exp10 : Z)
| JString (s : jsstring)
| JArray (items : list json)
| JObject (props : list (jsstring * json)).

Module JSON.

(** Outcome of one parsing function: a value and the unread input, a
    SyntaxError, or the recursion budget of the model used up. *)
Inductive presult (A : Type) : Type :=
| Ok (a : A) (rest : jsstring)
| SyntaxError
| OutOfFuel.
Arguments Ok {A} a rest.
Arguments SyntaxError {A}.
Arguments OutOfFuel {A}.

Definition isWs (c : N) : bool :=
  (c =? 9) || (c =? 10) || (c =? 13) || (c =? 32).

Fixpoint skipWs (s : jsstring) : jsstring :=
  match s with
  | c :: r => if isWs c then skipWs r else s
  | [] => []
  end.

Definition isDigit (c : N) : bool := (48 <=? c) && (c <=? 57).

Definition hexVal (c : N) : option N :=
  if isDigit c then Some (c - 48)
  else if (97 <=? c) && (c <=? 102) then Some (c - 87)
  else if (65 <=? c) && (c <=? 70) then Some (c - 55)
  else None.

Definition hex4 (a b c d : N) : option N :=
  match hexVal a, hexVal b, hexVal c, hexVal d with
  | Some x, Some y, Some z, Some w => Some (((x * 16 + y) * 16 + z) * 16 + w)
  | _, _, _, _ => None
  end.

(** The character a single-letter escape stands for. *)
Definition unescape (e : N) : option N :=
  if e =? 34 then Some 34
  else if e =? 92 then Some 92
  else if e =? 47 then Some 47
  else if e =? 98 then Some 8
  else if e =? 102 then Some 12
  else if e =? 110 then Some 10
  else if e =? 114 then Some 13
  else if e =? 116 then Some 9
  else None.

Definition consChar (c : N) (r : option (jsstring * jsstring))
  : option (jsstring * jsstring) :=
  match r with
  | Some (s, rest) => Some (c :: s, rest)
  | None => None
  end.

(** The characters of a string literal, read after its opening quote up
    to and including the closing one. *)
Fixpoint parseChars (s : jsstring) : option (jsstring * jsstring) :=
  match s with
  | [] => None
  | c :: r =>
      if c =? 34 then Some ([], r)
      else if c =? 92 then
        match r with
        | [] => None
        | e :: r1 =>
            if e =? 117 then
              match r1 with
              | h1 :: h2 :: h3 :: h4 :: r2 =>
                  match hex4 h1 h2 h3 h4 with
                  | Some u => consChar u (parseChars r2)
                  | None => None
                  end
              | _ => None
              end
            else
              match unescape e with
              | Some u => consChar u (parseChars r1)
              | None => None
              end
        end
      else if c <? 32 then None
      else consChar c (parseChars r)
  end.

Fixpoint takeDigits (s : jsstring) : list N * jsstring :=
  match s with
  | c :: r =>
      if isDigit c
      then let '(ds, rest) := takeDigits r in (c - 48 :: ds, rest)
      else ([], s)
  | [] => ([], [])
  end.

Definition digitsVal (ds : list N) : N :=
  fold_left (fun a d => 10 * a + d) ds 0.

Definition parseInt (s : jsstring) : option (list N * jsstring) :=
  match s with
  | c :: r =>
      if c =? 48 then Some ([0], r)
      else if isDigit c then Some (takeDigits s)
      else None
  | [] => None
  end.

Definition parseFrac (s : jsstring) : option (list N * jsstring) :=
  match s with
  | c :: r =>
      if c =? 46 then
        match takeDigits r with
        | ([], _) => None
        | (ds, rest) => Some (ds, rest)
        end
      else Some ([], s)
  | [] => Some ([], s)
  end.

Definition parseExp (s : jsstring) : option (Z * jsstring) :=
  match s with
  | c :: r =>
      if (c =? 101) || (c =? 69) then
        let '(minus, r1) :=
          match r with
          | g :: r' =>
              if g =? 45 then (true, r')
              else if g =? 43 then (false, r')
              else (false, r)
          | [] => (false, r)
          end in
        match takeDigits r1 with
        | ([], _) => None
        | (ds, rest) =>
            let e := Z.of_N (digitsVal ds) in
            Some (if minus then (- e)%Z else e, rest)
        end
      else Some (0%Z, s)
  | [] => Some (0%Z, s)
  end.

(** A number is kept as its exact decimal value
    [(-1)^neg * mant * 10^exp10]. *)
Definition parseNumber (s : jsstring) : option (json * jsstring) :=
  let '(neg, s1) :=
    match s with
    | c :: r => if c =? 45 then (true, r) else (false, s)
    | [] => (false, s)
    end in
  match parseInt s1 with
  | None => None
  | Some (ip, s2) =>
      match parseFrac s2 with
      | None => None
      | Some (fp, s3) =>
          match parseExp s3 with
          | None => None
          | Some (e, s4) =>
              Some (JNumber neg (digitsVal (ip ++ fp))
                      (e - Z.of_nat (length fp))%Z, s4)
          end
      end
  end.

Fixpoint dropPrefix (p s : jsstring) : option jsstring :=
  match p, s with
  | [], _ => Some s
  | a :: p', b :: s' => if a =? b then dropPrefix p' s' else None
  | _ :: _, [] => None
  end.

Definition parseLiteral (word : jsstring) (v : json) (s : jsstring)
  : presult json :=
  match dropPrefix word s with
  | Some rest => Ok v rest
  | None => SyntaxError
  end.

(** Defining a property of the object under construction: a repeated key
    overwrites the earlier value and keeps its place. *)
Fixpoint objSet (k : jsstring) (v : json) (props : list (jsstring * json))
  : list (jsstring * json) :=
  match props with
  | [] => [(k, v)]
  | (k', v') :: r =>
      if str_eqb k' k then (k', v) :: r else (k', v') :: objSet k v r
  end.

Fixpoint objGet (k : jsstring) (props : list (jsstring * json))
  : option json :=
  match props with
  | [] => None
  | (k', v) :: r => if str_eqb k' k then Some v else objGet k r
  end.

Fixpoint parseValue (fuel : nat) (s : jsstring) : presult json :=
  match fuel with
  | O => OutOfFuel
  | S f =>
      match skipWs s with
      | [] => SyntaxError
      | c :: r =>
          if c =? 34 then
            match parseChars r with
            | Some (str, rest) => Ok (JString str) rest
            | None => SyntaxError
            end
          else if c =? 123 then
            match skipWs r with
            | c' :: r' =>
                if c' =? 125 then Ok (JObject []) r'
                else parseMembers f (c' :: r') []
            | [] => SyntaxError
            end
          else if c =? 91 then
            match skipWs r with
            | c' :: r' =>
                if c' =? 93 then Ok (JArray []) r'
                else parseElements f (c' :: r') []
            | [] => SyntaxError
            end
          else if c =? 110 then parseLiteral (js "null") JNull (c :: r)
          else if c =? 116 then parseLiteral (js "true") (JBool true) (c :: r)
          else if c =? 102 then
            parseLiteral (js "false") (JBool false) (c :: r)
          else
            match parseNumber (c :: r) with
            | Some (n, rest) => Ok n rest
            | None => SyntaxError
            end
      end
  end

(** [parseMembers] reads [key : value] pairs, starting at the opening
    quote of a key, up to and including the closing brace. *)
with parseMembers (fuel : nat) (s : jsstring) (acc : list (jsstring * json))
  : presult json :=
  match fuel with
  | O => OutOfFuel
  | S f =>
      match s with
      | c :: r =>
          if c =? 34 then
            match parseChars r with
            | None => SyntaxError
            | Some (k, s1) =>
                match skipWs s1 with
                | c1 :: s2 =>
                    if c1 =? 58 then
                      match parseValue f s2 with
                      | Ok v s3 =>
                          match skipWs s3 with
                          | c3 :: s4 =>
                              if c3 =? 125 then
                                Ok (JObject (objSet k v acc)) s4
                              else if c3 =? 44 then
                                parseMembers f (skipWs s4) (objSet k v acc)
                              else SyntaxError
                          | [] => SyntaxError
                          end
                      | SyntaxError => SyntaxError
                      | OutOfFuel => OutOfFuel
                      end
                    else SyntaxError
                | [] => SyntaxError
                end
            end
          else SyntaxError
      | [] => SyntaxError
      end
  end

(** [parseElements] reads the elements of an array up to and including
    the closing bracket. *)
with parseElements (fuel : nat) (s : jsstring) (acc : list json)
  : presult json :=
  match fuel with
  | O => OutOfFuel
  | S f =>
      match parseValue f s with
      | Ok v s1 =>
          match skipWs s1 with
          | c :: s2 =>
              if c =? 93 then Ok (JArray (acc ++ [v])) s2
              else if c =? 44 then parseElements f s2 (acc ++ [v])
              else SyntaxError
          | [] => SyntaxError
          end
      | SyntaxError => SyntaxError
      | OutOfFuel => OutOfFuel
      end
  end.

(** [JSON.parse text] without reviver: one value, surrounded by optional
    white space.  [None] stands for the SyntaxError it throws.  The
    budget is never used up ([parse_fuel] below). *)
Definition parse (text : jsstring) : option json :=
  match parseValue (S (2 * length text)) text with
  | Ok v rest =>
      match skipWs rest with
      | [] => Some v
      | _ :: _ => None
      end
  | _ => None
  end.

(** *** JSON.stringify on an object whose values are strings *)

Definition hexDigit (d : N) : N := if d <? 10 then 48 + d else 87 + d.

Definition unicodeEscape (c : N) : jsstring :=
  [92; 117; hexDigit (c / 4096); hexDigit ((c / 256) mod 16);
   hexDigit ((c / 16) mod 16); hexDigit (c mod 16)].

Definition isHighSurrogate (c : N) : bool := (55296 <=? c) && (c <=? 56319).
Definition isLowSurrogate (c : N) : bool := (56320 <=? c) && (c <=? 57343).

(** QuoteJSONString, between the quotes. *)
Fixpoint quoteChars (s : jsstring) : jsstring :=
  match s with
  | [] => []
  | c :: r =>
      if c =? 8 then 92 :: 98 :: quoteChars r
      else if c =? 9 then 92 :: 116 :: quoteChars r
      else if c =? 10 then 92 :: 110 :: quoteChars r
      else if c =? 12 then 92 :: 102 :: quoteChars r
      else if c =? 13 then 92 :: 114 :: quoteChars r
      else if c =? 34 then 92 :: 34 :: quoteChars r
      else if c =? 92 then 92 :: 92 :: quoteChars r
      else if c <? 32 then unicodeEscape c ++ quoteChars r
      else if isHighSurrogate c then
        match r with
        | d :: r' =>
            if isLowSurrogate d then c :: d :: quoteChars r'
            else unicodeEscape c ++ quoteChars r
        | [] => unicodeEscape c
        end
      else if isLowSurrogate c then unicodeEscape c ++ quoteChars r
      else c :: quoteChars r
  end.

Definition quote (s : jsstring) : jsstring := 34 :: quoteChars s ++ [34].

Fixpoint stringifyMembers (props : list (jsstring * jsstring)) : jsstring :=
  match props with
  | [] => []
  | [(k, v)] => quote k ++ 58 :: quote v
  | (k, v) :: r => quote k ++ 58 :: quote v ++ 44 :: stringifyMembers r
  end.

(** [JSON.stringify obj] for an object [obj] whose own properties, in
    creation order, are [props], all with string values. *)
Definition stringify (props : list (jsstring * jsstring)) : jsstring :=
  123 :: stringifyMembers props ++ [125].

(** The object [JSON.parse] builds from string-valued members read in
    order, starting from the properties [acc]. *)
Definition fromStrings (props : list (jsstring * jsstring))
    (acc : list (jsstring * json)) : list (jsstring * json) :=
  fold_left (fun a kv => objSet (fst kv) (JString (snd kv)) a) props acc.

(** A parsing result that did not exhaust the budget and, when it is a
    value, has consumed input. *)
Definition progress (s : jsstring) (r : presult json) : Prop :=
  r <> OutOfFuel
  /\ forall v rest, r = Ok v rest -> (length rest < length s)%nat.

End JSON.

(** ** Dates

    Time values are milliseconds since the epoch, as in ECMAScript
    (DayFromYear, MakeDay, MakeTime, MakeDate). *)

Module DateModel.
Local Open Scope Z_scope.

Definition msPerDay : Z := 86400000.

Definition dayFromYear (y : Z) : Z :=
  365 * (y - 1970) + (y - 1969) / 4 - (y - 1901) / 100 + (y - 1601) / 400.

Definition isLeapYear (y : Z) : bool :=
  (y mod 4 =? 0) && (negb (y mod 100 =? 0) || (y mod 400 =? 0)).

Definition daysInMonth (y m : Z) : Z :=
  if m =? 2 then (if isLeapYear y then 29 else 28)
  else if (m =? 4) || (m =? 6) || (m =? 9) || (m =? 11) then 30
  else 31.

(** Days of the year [y] before the first of month [m] (1 to 12). *)
Definition daysBeforeMonth (y m : Z) : Z :=
  fold_left (fun acc k => acc + daysInMonth y (Z.of_nat k))
            (seq 1 (Z.to_nat (m - 1))) 0.

Definition makeDay (y m d : Z) : Z :=
  dayFromYear y + daysBeforeMonth y m + (d - 1).

Definition makeTime (h mi s ms : Z) : Z :=
  h * 3600000 + mi * 60000 + s * 1000 + ms.

Definition makeDate (day time : Z) : Z := day * msPerDay + time.

Definition digit (c : N) : option Z :=
  if JSON.isDigit c then Some (Z.of_N (c - 48)) else None.

Definition num2 (a b : N) : option Z :=
  match digit a, digit b with
  | Some x, Some y => Some (10 * x + y)
  | _, _ => None
  end.

Definition num4 (a b c d : N) : option Z :=
  match num2 a b, num2 c d with
  | Some x, Some y => Some (100 * x + y)
  | _, _ => None
  end.

(** The date-time form [YYYY-MM-DDTHH:mm:ss], which carries no offset and
    therefore denotes local time.  The result is the local time value;
    [None] stands for NaN.  The ledger only ever yields strings of this
    form ([exp] followed by T23:59:59).  A day of the month up to 31 is
    accepted in every month and runs over into the next one, as in V8
    (2027-02-30 is read as 2027-03-02); for a string outside the form
    engines differ and the model answers NaN. *)
Definition parseLocal (s : jsstring) : option Z :=
  match s with
  | [y1; y2; y3; y4; s1; m1; m2; s2; d1; d2; t; h1; h2; c1; i1; i2; c2;
     e1; e2] =>
      if (s1 =? 45)%N && (s2 =? 45)%N && (t =? 84)%N && (c1 =? 58)%N
         && (c2 =? 58)%N
      then
        match num4 y1 y2 y3 y4, num2 m1 m2, num2 d1 d2,
              num2 h1 h2, num2 i1 i2, num2 e1 e2 with
        | Some y, Some m, Some d, Some h, Some mi, Some sec =>
            if (1 <=? m) && (m <=? 12) && (1 <=? d) && (d <=? 31)
               && (h <=? 23) && (mi <=? 59) && (sec <=? 59)
            then Some (makeDate (makeDay y m d) (makeTime h mi sec 0))
            else None
        | _, _, _, _, _, _ => None
        end
      else None
  | _ => None
  end.

End DateModel.

(** What a run of the handler reads from its surroundings: the system
    clock ([new Date()]) and the local time zone of the host, as the
    conversion from a local time value to a UTC one. *)
Record Env : Type := {
  clock : Z;
  utcOfLocal : Z -> Z
}.

(** [new Date(s)] for a date-time string [s]: its time value, NaN as
    [None]. *)
Definition newDate (env : Env) (s : jsstring) : option Z :=
  match DateModel.parseLocal s with
  | Some t => Some (utcOfLocal env t)
  | None => None
  end.

(** [a > b] on two dates, the second possibly invalid: a comparison with
    NaN is false. *)
Definition dateGt (a : Z) (b : option Z) : bool :=
  match b with
  | Some t => (t <? a)%Z
  | None => false
  end.

(** ** The ledger *)

Record BatchRecord : Type := {
  id : jsstring;
  name : jsstring;
  batch : jsstring;
  mfg : jsstring;
  exp : jsstring;
  manufacturer : jsstring;
  supplier : jsstring;
  shop : jsstring;
  checksum : jsstring;
  status : jsstring
}.

Definition mockLedger : list BatchRecord := [
  {| id := js "MED-001";
     name := js "Paracetamol 500mg (10 tabs)";
     batch := js "B456789";
     mfg := js "2025-09-01";
     exp := js "2027-08-31";
     manufacturer := js "XYZ Pharma Pvt Ltd";
     supplier := js "Sunrise Distributors";
     shop := js "Sahil Medicals (Chembur)";
     checksum := js "f9a2";
     status := js "active" |};
  {| id := js "MED-002";
     name := js "Amoxicillin 250mg (10 caps)";
     batch := js "B984321";
     mfg := js "2025-08-12";
     exp := js "2027-07-31";
     manufacturer := js "HealthCore Labs";
     supplier := js "MedRoute Logistics";
     shop := js "Sahil Medicals (Chembur)";
     checksum := js "7c3d";
     status := js "active" |};
  {| id := js "MED-003";
     name := js "Cetirizine 10mg (10 tabs)";
     batch := js "C772210";
     mfg := js "2025-07-05";
     exp := js "2027-06-30";
     manufacturer := js "Allied Remedies";
     supplier := js "TrustMed Supply Co.";
     shop := js "Sahil Medicals (Chembur)";
     checksum := js "11be";
     status := js "active" |};
  {| id := js "MED-004";
     name := js "Ibuprofen 200mg (10 tabs)";
     batch := js "I220015";
     mfg := js "2025-06-18";
     exp := js "2027-06-17";
     manufacturer := js "NovaRx Industries";
     supplier := js "Lifeline Distributors";
     shop := js "Sahil Medicals (Chembur)";
     checksum := js "c0de";
     status := js "recalled" |}
].

(** ** Token codec *)

Definition marker : jsstring := js "REDSTEEP-DEMO".

(** [None]: [btoa] threw. *)
Definition encodeToken (row : BatchRecord) : option jsstring :=
  let payload :=
    [(js "t", marker); (js "id", id row); (js "b", batch row);
     (js "c", checksum row)] in
  Base64.btoa (JSON.stringify payload).

(** ToBoolean.  A number is falsy when it is [+0] or [-0]: the decimal
    [mant * 10^exp10] rounds to zero exactly when it is at most [2^-1075]. *)
Definition truthy (j : json) : bool :=
  match j with
  | JNull => false
  | JBool b => b
  | JNumber _ mant exp10 =>
      if (0 <=? exp10)%Z then negb (mant =? 0)
      else negb (mant * 2 ^ 1075 <=? 10 ^ Z.to_N (- exp10))
  | JString s => negb (str_eqb s [])
  | JArray _ => true
  | JObject _ => true
  end.

(** [j.k] for one of the keys [t], [id], [b], [c], which no built-in
    prototype defines: the own property of an object, [undefined] ([None])
    on anything else. *)
Definition getProp (j : json) (k : jsstring) : option json :=
  match j with
  | JObject props => JSON.objGet k props
  | _ => None
  end.

(** [s === v] for a string [s]. *)
Definition strictEq (s : jsstring) (v : option json) : bool :=
  match v with
  | Some (JString s') => str_eqb s s'
  | _ => false
  end.

(** [None] is the [null] the function returns, also from its [catch]. *)
Definition decodeToken (token : jsstring) : option json :=
  match Base64.atob token with
  | None => None
  | Some text =>
      match JSON.parse text with
      | None => None
      | Some json =>
          if negb (truthy json) || negb (strictEq marker (getProp json (js "t")))
          then None
          else Some json
      end
  end.

(** ** The verification handler *)

Record VerifyResult : Type := {
  ok : bool;
  reason : option jsstring;
  data : option BatchRecord
}.

(** The module-level [scanned] set and the two pieces of component state
    the handler writes. *)
Record State : Type := {
  scanned : gset jsstring;
  verifyResult : option VerifyResult;
  duplicateFlag : bool
}.

Definition setDuplicateFlag (b : bool) (st : State) : State :=
  {| scanned := scanned st; verifyResult := verifyResult st;
     duplicateFlag := b |}.

Definition setVerifyResult (r : VerifyResult) (st : State) : State :=
  {| scanned := scanned st; verifyResult := Some r;
     duplicateFlag := duplicateFlag st |}.

Definition scannedAdd (key : jsstring) (st : State) : State :=
  {| scanned := {[key]} ∪ scanned st; verifyResult := verifyResult st;
     duplicateFlag := duplicateFlag st |}.

Definition reasonInvalidToken : jsstring :=
  js "Invalid or corrupted QR payload.".
Definition reasonNoMatch : jsstring :=
  js "No matching batch on ledger (possible counterfeit).".
Definition reasonRecalled : jsstring :=
  js "Batch is recalled by manufacturer.".
Definition reasonExpired : jsstring := js "Medicine is expired.".

Definition failure (why : jsstring) (d : option BatchRecord) : VerifyResult :=
  {| ok := false; reason := Some why; data := d |}.

Definition success (m : BatchRecord) : VerifyResult :=
  {| ok := true; reason := None; data := Some m |}.

(** ToString inside a template literal.  The conversion of a number, an
    array or an object is not modelled ([None]); [templateKey_matched]
    shows that the handler never asks for it. *)
Definition toStr (v : option json) : option jsstring :=
  match v with
  | None => Some (js "undefined")
  | Some JNull => Some (js "null")
  | Some (JBool true) => Some (js "true")
  | Some (JBool false) => Some (js "false")
  | Some (JString s) => Some s
  | Some _ => None
  end.

(** The key [i-b-c] of three strings. *)
Definition joinKey (i b c : jsstring) : jsstring :=
  i ++ js "-" ++ b ++ js "-" ++ c.

Definition templateKey (decoded : json) : option jsstring :=
  match toStr (getProp decoded (js "id")), toStr (getProp decoded (js "b")),
        toStr (getProp decoded (js "c")) with
  | Some i, Some b, Some c => Some (joinKey i b c)
  | _, _, _ => None
  end.

Definition matches (decoded : json) (r : BatchRecord) : bool :=
  strictEq (id r) (getProp decoded (js "id"))
  && strictEq (batch r) (getProp decoded (js "b"))
  && strictEq (checksum r) (getProp decoded (js "c")).

(** [handleVerify] over an arbitrary ledger.  The result is [None] only if
    the run left the modelled fragment of the language ([toStr]). *)
Definition verifyOn (ledger : list BatchRecord) (env : Env)
    (token : jsstring) (st : State) : option State :=
  let st := setDuplicateFlag false st in
  match decodeToken (trim token) with
  | None => Some (setVerifyResult (failure reasonInvalidToken None) st)
  | Some decoded =>
      match List.find (matches decoded) ledger with
      | None => Some (setVerifyResult (failure reasonNoMatch None) st)
      | Some match_ =>
          match templateKey decoded with
          | None => None
          | Some key =>
              let st :=
                if bool_decide (key ∈ scanned st)
                then setDuplicateFlag true st
                else scannedAdd key st in
              let now := clock env in
              let exp := newDate env (exp match_ ++ js "T23:59:59") in
              let isExpired := dateGt now exp in
              if str_eqb (status match_) (js "recalled") then
                Some (setVerifyResult
                        (failure reasonRecalled (Some match_)) st)
              else if isExpired then
                Some (setVerifyResult
                        (failure reasonExpired (Some match_)) st)
              else Some (setVerifyResult (success match_) st)
          end
      end
  end.

Definition handleVerify : Env -> jsstring -> State -> option State :=
  verifyOn mockLedger.

Definition initialState : State :=
  {| scanned := ∅; verifyResult := None; duplicateFlag := false |}.

(** ** The handler as a program that asks its host

    [handleVerify] receives the token and nothing else; the instant and
    the expiry bound are obtained inside it, by [new Date()] and
    [new Date(s)].  Here these two requests are kept as such, and [run]
    answers them from an [Env]. *)

Inductive Host : Type -> Type :=
| Now : Host Z
| DateOf (s : jsstring) : Host (option Z).

Inductive Prog (A : Type) : Type :=
| Ret (a : A)
| Ask {X : Type} (request : Host X) (k : X -> Prog A).
Arguments Ret {A} a.
Arguments Ask {A X} request k.

Definition answer (env : Env) {X : Type} (request : Host X) : X :=
  match request with
  | Now => clock env
  | DateOf s => newDate env s
  end.

Fixpoint run (env : Env) {A : Type} (p : Prog A) : A :=
  match p with
  | Ret a => a
  | Ask request k => run env (k (answer env request))
  end.

Definition verifyProgram (ledger : list BatchRecord) (token : jsstring)
    (st : State) : Prog (option State) :=
  let st := setDuplicateFlag false st in
  match decodeToken (trim token) with
  | None => Ret (Some (setVerifyResult (failure reasonInvalidToken None) st))
  | Some decoded =>
      match List.find (matches decoded) ledger with
      | None => Ret (Some (setVerifyResult (failure reasonNoMatch None) st))
      | Some match_ =>
          match templateKey decoded with
          | None => Ret None
          | Some key =>
              let st :=
                if bool_decide (key ∈ scanned st)
                then setDuplicateFlag true st
                else scannedAdd key st in
              Ask Now (fun now =>
              Ask (DateOf (exp match_ ++ js "T23:59:59")) (fun exp =>
              let isExpired := dateGt now exp in
              if str_eqb (status match_) (js "recalled") then
                Ret (Some (setVerifyResult
                             (failure reasonRecalled (Some match_)) st))
              else if isExpired then
                Ret (Some (setVerifyResult
                             (failure reasonExpired (Some match_)) st))
              else Ret (Some (setVerifyResult (success match_) st))))
          end
      end
  end.

Definition handleVerifyProgram : jsstring -> State -> Prog (option State) :=
  verifyProgram mockLedger.

(** ** Vocabulary of the statements *)

(** The claim [d] carries exactly the identity of record [r]. *)
Definition sameTriple (d : json) (r : BatchRecord) : Prop :=
  getProp d (js "id") = Some (JString (id r))
  /\ getProp d (js "b") = Some (JString (batch r))
  /\ getProp d (js "c") = Some (JString (checksum r)).

Definition triple (d : json) : option json * option json * option json :=
  (getProp d (js "id"), getProp d (js "b"), getProp d (js "c")).

(** The payload object [encodeToken] serialises. *)
Definition claimOf (i b c : jsstring) : json :=
  JObject [(js "t", JString marker); (js "id", JString i);
           (js "b", JString b); (js "c", JString c)].

Definition keyOf (r : BatchRecord) : jsstring :=
  joinKey (id r) (batch r) (checksum r).

(** The business rules of [handleVerify] on a matched record. *)
Definition ruleResult (env : Env) (m : BatchRecord) : VerifyResult :=
  if str_eqb (status m) (js "recalled") then failure reasonRecalled (Some m)
  else if dateGt (clock env) (newDate env (exp m ++ js "T23:59:59"))
       then failure reasonExpired (Some m)
       else success m.

(** A sequence of calls of the handler, each with its own surroundings. *)
Fixpoint runCalls (ledger : list BatchRecord) (calls : list (Env * jsstring))
    (st : State) : option State :=
  match calls with
  | [] => Some st
  | (env, token) :: rest =>
      match verifyOn ledger env token st with
      | Some st' => runCalls ledger rest st'
      | None => None
      end
  end.

(** Strings [btoa] accepts. *)
Definition latin1 (s : jsstring) : Prop := Forall (fun c => c <= 255) s.

Definition localTime (y m d h mi s ms : Z) : Z :=
  DateModel.makeDate (DateModel.makeDay y m d) (DateModel.makeTime h mi s ms).

(** A host whose local time is UTC and whose clock reads [now]. *)
Definition utcHost (now : Z) : Env :=
  {| clock := now; utcOfLocal := fun t => t |}.

Definition emptyRow : BatchRecord :=
  {| id := []; name := []; batch := []; mfg := []; exp := [];
     manufacturer := []; supplier := []; shop := []; checksum := [];
     status := [] |}.

Definition paracetamol : BatchRecord := nth 0 mockLedger emptyRow.
Definition ibuprofen : BatchRecord := nth 3 mockLedger emptyRow.

(** The token of MED-001, and that of the recalled MED-004. *)
Definition demoToken : jsstring :=
  js "eyJ0IjoiUkVEU1RFRVAtREVNTyIsImlkIjoiTUVELTAwMSIsImIiOiJCNDU2Nzg5IiwiYyI6ImY5YTIifQ==".
Definition recalledToken : jsstring :=
  js "eyJ0IjoiUkVEU1RFRVAtREVNTyIsImlkIjoiTUVELTAwNCIsImIiOiJJMjIwMDE1IiwiYyI6ImMwZGUifQ==".

(** MED-001 with checksum ffff; MED-001 with its id in lower case; a
    payload that holds the marker and nothing else. *)
Definition wrongChecksumToken : jsstring :=
  js "eyJ0IjoiUkVEU1RFRVAtREVNTyIsImlkIjoiTUVELTAwMSIsImIiOiJCNDU2Nzg5IiwiYyI6ImZmZmYifQ==".
Definition lowerCaseToken : jsstring :=
  js "eyJ0IjoiUkVEU1RFRVAtREVNTyIsImlkIjoibWVkLTAwMSIsImIiOiJCNDU2Nzg5IiwiYyI6ImY5YTIifQ==".
Definition markerOnlyToken : jsstring := js "eyJ0IjoiUkVEU1RFRVAtREVNTyJ9".

(** The state after MED-001 was verified twice. *)
Definition rescanned : State :=
  {| scanned := {[keyOf paracetamol]};
     verifyResult := Some (success paracetamol);
     duplicateFlag := true |}.

(** A record whose id ends in the Devanagari digit one (U+0967). *)
Definition devanagariRow : BatchRecord :=
  {| id := js "MED-" ++ [2407]; name := js "Paracetamol"; batch := js "B1";
     mfg := js "2025-09-01"; exp := js "2027-08-31"; manufacturer := [];
     supplier := []; shop := []; checksum := js "f9a2";
     status := js "active" |}.

(** ** The ledger grid, the verification box and the result panel *)

Module View.

(** [s.includes(pat)]: [pat] occurs in [s] as a substring. *)
Fixpoint startsWith (s pat : jsstring) {struct pat} : bool :=
  match pat, s with
  | [], _ => true
  | p :: pat', c :: s' => (p =? c) && startsWith s' pat'
  | _ :: _, [] => false
  end.

Fixpoint includes (s pat : jsstring) : bool :=
  startsWith s pat
  || match s with
     | [] => false
     | _ :: r => includes r pat
     end.

(** A ledger record with its token: [{ ...r, token: encodeToken(r) }]. *)
Record LedgerRow : Type := {
  record : BatchRecord;
  token : jsstring
}.

(** [mockLedger.map(...)]; [None] when [encodeToken] throws on a record. *)
Fixpoint withTokens (l : list BatchRecord) : option (list LedgerRow) :=
  match l with
  | [] => Some []
  | r :: rest =>
      match encodeToken r, withTokens rest with
      | Some t, Some rows => Some ({| record := r; token := t |} :: rows)
      | _, _ => None
      end
  end.

Section CaseMapping.

(** [String.prototype.toLowerCase], whose Unicode case mapping is taken as
    given. *)
Variable toLowerCase : jsstring -> jsstring.

Definition matchesText (query : jsstring) (r : BatchRecord) : bool :=
  (length (trim query) =? 0)%nat
  || includes (toLowerCase (name r)) (toLowerCase query)
  || includes (toLowerCase (id r)) (toLowerCase query)
  || includes (toLowerCase (batch r)) (toLowerCase query).

Definition matchesFilter (filter : jsstring) (r : BatchRecord) : bool :=
  if str_eqb filter (js "all") then true else str_eqb (status r) filter.

(** The memoised [ledger] of the component, over an arbitrary list of
    records. *)
Definition ledgerOn (source : list BatchRecord) (query filter : jsstring)
  : option (list LedgerRow) :=
  match withTokens source with
  | Some rows =>
      Some (List.filter
              (fun r => matchesText query (record r)
                        && matchesFilter filter (record r)) rows)
  | None => None
  end.

Definition ledger : jsstring -> jsstring -> option (list LedgerRow) :=
  ledgerOn mockLedger.

End CaseMapping.

(** The body of the effect that fills the verification box:
    [if (ledger.length && !verifyInput) setVerifyInput(ledger[0].token)]. *)
Definition autofill (rows : list LedgerRow) (verifyInput : jsstring)
  : jsstring :=
  match rows with
  | first :: _ => if str_eqb verifyInput [] then token first else verifyInput
  | [] => verifyInput
  end.



(** ASCII letters in lower case: what [toLowerCase] does to a string of
    ASCII characters. *)
Definition asciiLower (c : N) : N :=
  if (65 <=? c) && (c <=? 90) then c + 32 else c.

Definition isAscii (s : jsstring) : Prop := Forall (fun c => c < 128) s.

Definition lowerAscii (s : jsstring) : jsstring := List.map asciiLower s.

End View.

(** The characters a token is made of. *)
Definition isTokenChar (c : N) : bool :=
  match Base64.dec c with
  | Some _ => true
  | None => c =? Base64.pad
  end.

(** The key of the ledger record a token matches, if any. *)
Definition matchedKey (ledger : list BatchRecord) (token : jsstring)
  : option jsstring :=
  match decodeToken (trim token) with
  | Some d =>
      match List.find (matches d) ledger with
      | Some m => Some (keyOf m)
      | None => None
      end
  | None => None
  end.

(** No two records of the ledger carry the same identity. *)
Definition distinctTriples (ledger : list BatchRecord) : Prop :=
  forall r1 r2, In r1 ledger -> In r2 ledger ->
    id r1 = id r2 -> batch r1 = batch r2 -> checksum r1 = checksum r2 ->
    r1 = r2.

(** * Properties *)

Ltac divmod := zify; Z.to_euclidean_division_equations; lia.

(** ** atob undoes btoa *)

Module Base64Facts.
Import Base64.

Lemma list_ind3 {A} (P : list A -> Prop) :
  P [] -> (forall a, P [a]) -> (forall a b, P [a; b]) ->
  (forall a b c r, P r -> P (a :: b :: c :: r)) ->
  forall l, P l.
Proof.
  intros H0 H1 H2 H3.
  assert (H : forall l, P l /\ (forall a, P (a :: l)) /\ (forall a b, P (a :: b :: l))).
  { induction l as [|x l (IH0 & IH1 & IH2)]; auto. }
  apply H.
Qed.

Lemma stripPadding_cons c r :
  stripPadding (c :: r) = if isPadTail (c :: r) then [] else c :: stripPadding r.
Proof. reflexivity. Qed.

(** [stripPadding] removes the two [=] the data ends with, ... *)
Lemma stripPadding_two_pads b : stripPadding (b ++ [pad; pad]) = b.
Proof.
  induction b as [|c b IH]; [reflexivity|].
  cbn [app]. rewrite stripPadding_cons, IH.
  now destruct b as [|? [|? ?]].
Qed.

(** ... or the single one, ... *)
Lemma stripPadding_one_pad b :
  last b <> Some pad -> stripPadding (b ++ [pad]) = b.
Proof.
  induction b as [|c b IH]; [reflexivity|]. intros Hl.
  cbn [app]. rewrite stripPadding_cons.
  destruct b as [|c1 b].
  - cbn [app isPadTail]. cbn [last] in Hl.
    destruct (N.eqb_spec c pad) as [->|Hc]; [congruence|reflexivity].
  - rewrite IH by exact Hl. now destruct b.
Qed.

(** ... and nothing when there is none. *)
Lemma stripPadding_no_pad s : last s <> Some pad -> stripPadding s = s.
Proof.
  induction s as [|c s IH]; [reflexivity|]. intros Hl.
  rewrite stripPadding_cons.
  destruct s as [|c1 s].
  - cbn [isPadTail stripPadding]. cbn [last] in Hl.
    destruct (N.eqb_spec c pad) as [->|Hc]; [congruence|reflexivity].
  - rewrite IH by exact Hl.
    destruct s as [|c2 s]; [|reflexivity].
    cbn [isPadTail]. cbn [last] in Hl.
    destruct (N.eqb_spec c1 pad) as [->|Hc]; [congruence|].
    now rewrite andb_false_r.
Qed.

Lemma nth_alphabet_cases (Q : N -> Prop) :
  Forall Q alphabet -> Q 0 -> forall n, Q (nth n alphabet 0).
Proof.
  intros Hall H0 n.
  destruct (Nat.lt_ge_cases n (length alphabet)) as [Hlt|Hge].
  - rewrite List.Forall_forall in Hall. apply Hall, nth_In, Hlt.
  - rewrite nth_overflow; auto.
Qed.

Lemma enc_not_ws i : isAsciiWhitespace (enc i) = false.
Proof.
  unfold enc. apply nth_alphabet_cases; [|reflexivity].
  vm_compute. repeat constructor.
Qed.

Lemma enc_lt_cases (Q : N -> N -> Prop) :
  (forall n, (n < 64)%nat -> Q (N.of_nat n) (nth n alphabet 0)) ->
  forall i, i < 64 -> Q i (enc i).
Proof.
  intros H i Hi. unfold enc.
  rewrite <- (N2Nat.id i) at 1. apply H. lia.
Qed.

Lemma enc_not_pad i : i < 64 -> (enc i =? pad) = false.
Proof.
  revert i. apply (enc_lt_cases (fun _ c => (c =? pad) = false)).
  intros n Hn.
  do 64 (destruct n as [|n]; [reflexivity|]). lia.
Qed.

Lemma dec_enc i : i < 64 -> dec (enc i) = Some i.
Proof.
  revert i. apply (enc_lt_cases (fun i c => dec c = Some i)).
  intros n Hn.
  do 64 (destruct n as [|n]; [reflexivity|]). lia.
Qed.

Lemma sextet_bounds a b c :
  a <= 255 -> b <= 255 -> c <= 255 ->
  a / 4 < 64 /\ (a mod 4) * 16 + b / 16 < 64
  /\ (b mod 16) * 4 + c / 64 < 64 /\ c mod 64 < 64
  /\ (a mod 4) * 16 < 64 /\ (b mod 16) * 4 < 64.
Proof. intros. repeat split; divmod. Qed.

Lemma group3 a b c :
  a <= 255 -> b <= 255 -> c <= 255 ->
  let n := ((a / 4 * 64 + ((a mod 4) * 16 + b / 16)) * 64
            + ((b mod 16) * 4 + c / 64)) * 64 + c mod 64 in
  n / 65536 = a /\ (n / 256) mod 256 = b /\ n mod 256 = c.
Proof. intros. subst n. repeat split; divmod. Qed.

Lemma group2 a b :
  a <= 255 -> b <= 255 ->
  let n := ((a / 4 * 64 + ((a mod 4) * 16 + b / 16)) * 64
            + (b mod 16) * 4) / 4 in
  n / 256 = a /\ n mod 256 = b.
Proof. intros. subst n. repeat split; divmod. Qed.

Lemma group1 a : a <= 255 -> (a / 4 * 64 + (a mod 4) * 16) / 16 = a.
Proof. intros. divmod. Qed.

Lemma encode_no_ws s :
  List.filter (fun c => negb (isAsciiWhitespace c)) (encode s) = encode s.
Proof.
  induction s as [|a|a b|a b c r IH] using list_ind3;
    cbn [encode List.filter pad];
    rewrite ?enc_not_ws; cbn [negb isAsciiWhitespace N.eqb Pos.eqb orb].
  all: try reflexivity. now rewrite IH.
Qed.

Lemma mod4_step n : N.of_nat (S (S (S (S n)))) mod 4 = N.of_nat n mod 4.
Proof.
  replace (N.of_nat (S (S (S (S n))))) with (N.of_nat n + 1 * 4) by lia.
  apply N.Div0.mod_add.
Qed.

Lemma encode_length s : N.of_nat (length (encode s)) mod 4 = 0.
Proof.
  induction s as [|a|a b|a b c r IH] using list_ind3; try reflexivity.
  cbn [encode length]. rewrite mod4_step. exact IH.
Qed.

Lemma stripPadding_two c d x :
  (c =? pad) = false -> (d =? pad) = false ->
  stripPadding (c :: d :: x) = c :: d :: stripPadding x.
Proof.
  intros Hc Hd. destruct x as [|y [|z x]]; cbn [stripPadding isPadTail];
    rewrite ?Hc, ?Hd; reflexivity.
Qed.

Lemma stripPadding_four a b c d x :
  (c =? pad) = false -> (d =? pad) = false ->
  stripPadding (a :: b :: c :: d :: x) = a :: b :: c :: d :: stripPadding x.
Proof.
  intros Hc Hd. rewrite <- (stripPadding_two c d x Hc Hd). reflexivity.
Qed.

Lemma sextets_enc i r v :
  i < 64 -> sextets r = Some v -> sextets (enc i :: r) = Some (i :: v).
Proof.
  intros Hi Hr. cbn [sextets]. rewrite (dec_enc i Hi), Hr. reflexivity.
Qed.

(** What [atob] computes from the output of [encode], after its
    white-space and length steps. *)
Lemma decode_encode s :
  Forall (fun c => c <= 255) s ->
  exists v, sextets (stripPadding (encode s)) = Some v
            /\ decodeGroups v = s
            /\ (N.of_nat (length (stripPadding (encode s))) mod 4 =? 1) = false.
Proof.
  induction s as [|a|a b|a b c r IH] using list_ind3; intros Hs.
  - exists []. repeat split.
  - apply Forall_cons in Hs as [Ha _].
    destruct (sextet_bounds a a a Ha Ha Ha) as (H1 & _ & _ & _ & H2 & _).
    exists [a / 4; (a mod 4) * 16]. split; [|split].
    + change (stripPadding (encode [a]))
        with [enc (a / 4); enc ((a mod 4) * 16)].
      repeat (apply sextets_enc; [assumption|]). reflexivity.
    + cbn [decodeGroups]. f_equal. apply group1, Ha.
    + reflexivity.
  - apply Forall_cons in Hs as [Ha Hs]. apply Forall_cons in Hs as [Hb _].
    destruct (sextet_bounds a b b Ha Hb Hb) as (H1 & H2 & _ & _ & _ & H3).
    exists [a / 4; (a mod 4) * 16 + b / 16; (b mod 16) * 4].
    assert (E : stripPadding (encode [a; b])
                = [enc (a / 4); enc ((a mod 4) * 16 + b / 16);
                   enc ((b mod 16) * 4)]).
    { cbn [encode stripPadding isPadTail].
      rewrite (enc_not_pad _ H3). reflexivity. }
    assert (L : length (stripPadding (encode [a; b])) = 3%nat)
      by (rewrite E; reflexivity).
    rewrite E. split; [|split].
    + repeat (apply sextets_enc; [assumption|]). reflexivity.
    + cbn [decodeGroups].
      destruct (group2 a b Ha Hb) as [-> ->]. reflexivity.
    + reflexivity.
  - apply Forall_cons in Hs as [Ha Hs]. apply Forall_cons in Hs as [Hb Hs].
    apply Forall_cons in Hs as [Hc Hs].
    destruct (IH Hs) as (v & Hv & Hd & Hl).
    destruct (sextet_bounds a b c Ha Hb Hc) as (H1 & H2 & H3 & H4 & _ & _).
    exists (a / 4 :: (a mod 4) * 16 + b / 16 :: (b mod 16) * 4 + c / 64
              :: c mod 64 :: v).
    cbn [encode].
    rewrite stripPadding_four by (apply enc_not_pad; assumption).
    split; [|split].
    + repeat (apply sextets_enc; [assumption|]). exact Hv.
    + cbn [decodeGroups].
      destruct (group3 a b c Ha Hb Hc) as (-> & -> & ->).
      rewrite Hd. reflexivity.
    + cbn [length]. rewrite mod4_step. exact Hl.
Qed.

Theorem atob_encode s :
  Forall (fun c => c <= 255) s -> atob (encode s) = Some s.
Proof.
  intros Hs. unfold atob.
  rewrite encode_no_ws, encode_length. cbn [N.eqb].
  destruct (decode_encode s Hs) as (v & -> & -> & ->). reflexivity.
Qed.

Lemma btoa_Some s t : btoa s = Some t <-> Forall (fun c => c <= 255) s /\ t = encode s.
Proof.
  unfold btoa. destruct (forallb _ s) eqn:E.
  - rewrite forallb_forall in E. split.
    + intros [= <-]. split; [|reflexivity].
      apply List.Forall_forall. intros c Hc. apply N.leb_le, E, Hc.
    + intros [_ ->]. reflexivity.
  - split; [discriminate|]. intros [H _]. exfalso.
    rewrite List.Forall_forall in H.
    assert (forallb (fun c => c <=? 255) s = true) as E'.
    { apply forallb_forall. intros c Hc. apply N.leb_le, H, Hc. }
    congruence.
Qed.

Theorem atob_btoa s t : btoa s = Some t -> atob t = Some s.
Proof. intros [Hs ->]%btoa_Some. apply atob_encode, Hs. Qed.
End Base64Facts.

(** ** JSON.parse undoes JSON.stringify *)

Module JSONFacts.
Import JSON.
Lemma hexVal_hexDigit d : d < 16 -> hexVal (hexDigit d) = Some d.
Proof.
  intros Hd.
  assert (H : In d (List.map N.of_nat (seq 0 16))).
  { apply in_map_iff. exists (N.to_nat d). split; [lia|]. apply in_seq. lia. }
  cbn in H. intuition (subst; try reflexivity).
Qed.

Lemma hex4_unicodeEscape c :
  c < 65536 ->
  hex4 (hexDigit (c / 4096)) (hexDigit ((c / 256) mod 16))
       (hexDigit ((c / 16) mod 16)) (hexDigit (c mod 16)) = Some c.
Proof.
  intros Hc. unfold hex4.
  rewrite !hexVal_hexDigit by divmod.
  f_equal. divmod.
Qed.

Lemma parseChars_raw c r :
  (c =? 34) = false -> (c =? 92) = false -> (c <? 32) = false ->
  parseChars (c :: r) = consChar c (parseChars r).
Proof. intros H1 H2 H3. cbn [parseChars]. rewrite H1, H2, H3. reflexivity. Qed.

Lemma parseChars_unicode c r :
  c < 65536 ->
  parseChars (unicodeEscape c ++ r) = consChar c (parseChars r).
Proof.
  intros Hc. cbn [unicodeEscape app parseChars].
  change (92 =? 34) with false. change (92 =? 92) with true.
  change (117 =? 117) with true. cbv iota.
  rewrite (hex4_unicodeEscape c Hc). reflexivity.
Qed.

Lemma parseChars_escape e u r :
  In (e, u) [(98, 8); (116, 9); (110, 10); (102, 12); (114, 13);
             (34, 34); (92, 92)] ->
  parseChars (92 :: e :: r) = consChar u (parseChars r).
Proof.
  cbn [In]. intuition (try match goal with H : (_, _) = (_, _) |- _ =>
                         injection H as <- <- end; reflexivity).
Qed.

Theorem parseChars_quoteChars s rest :
  parseChars (quoteChars s ++ 34 :: rest) = Some (s, rest).
Proof.
  remember (length s) as n eqn:Hn.
  assert (Hle : (length s <= n)%nat) by lia. clear Hn.
  revert s rest Hle.
  induction n as [|n IH]; intros [|c r] rest Hle; cbn [length] in Hle;
    try lia; try reflexivity.
  assert (IHr : forall rest, parseChars (quoteChars r ++ 34 :: rest) = Some (r, rest))
    by (intros; apply IH; lia).
  cbn [quoteChars].
  repeat match goal with
    | |- context [if ?k =? ?v then _ else _] =>
        destruct (N.eqb_spec k v) as [->|?];
        [ cbn [app]; erewrite parseChars_escape by (cbn [In]; eauto 10);
          rewrite IHr; reflexivity | ]
    end.
  destruct (N.ltb_spec c 32).
  { rewrite <- app_assoc, parseChars_unicode by lia. now rewrite IHr. }
  destruct (isHighSurrogate c) eqn:Hh.
  { unfold isHighSurrogate in Hh. apply andb_true_iff in Hh as [H1 H2].
    apply N.leb_le in H1, H2.
    destruct r as [|d r'].
    - rewrite parseChars_unicode by lia. reflexivity.
    - destruct (isLowSurrogate d) eqn:Hl.
      + unfold isLowSurrogate in Hl. apply andb_true_iff in Hl as [H3 H4].
        apply N.leb_le in H3, H4.
        cbn [app].
        rewrite !parseChars_raw
          by (first [apply N.eqb_neq | apply N.ltb_ge]; lia).
        rewrite IH by (cbn [length] in Hle; lia). reflexivity.
      + rewrite <- app_assoc, parseChars_unicode by lia. now rewrite IHr. }
  destruct (isLowSurrogate c) eqn:Hl.
  { unfold isLowSurrogate in Hl. apply andb_true_iff in Hl as [H3 H4].
    apply N.leb_le in H3, H4.
    rewrite <- app_assoc, parseChars_unicode by lia. now rewrite IHr. }
  cbn [app].
  rewrite parseChars_raw
    by (first [apply N.eqb_neq | apply N.ltb_ge]; lia).
  now rewrite IHr.
Qed.

Lemma quote_app s x : quote s ++ x = 34 :: (quoteChars s ++ 34 :: x).
Proof. unfold quote. cbn [app]. now rewrite <- app_assoc. Qed.

Lemma parseValue_quote f s rest :
  parseValue (S f) (quote s ++ rest) = Ok (JString s) rest.
Proof.
  rewrite quote_app.
  change (parseValue (S f) (34 :: ?x))
    with (match parseChars x with
          | Some (str, rest) => Ok (JString str) rest
          | None => SyntaxError
          end).
  now rewrite parseChars_quoteChars.
Qed.

(** One [key : value] pair with a string value, followed by [z]. *)
Lemma parseMembers_member f k v z acc :
  parseMembers (S (S f)) (quote k ++ 58 :: quote v ++ z) acc
  = match skipWs z with
    | c :: r =>
        if c =? 125 then Ok (JObject (objSet k (JString v) acc)) r
        else if c =? 44 then
          parseMembers (S f) (skipWs r) (objSet k (JString v) acc)
        else SyntaxError
    | [] => SyntaxError
    end.
Proof.
  rewrite quote_app.
  cbn [parseMembers]. change (34 =? 34) with true. cbv iota.
  rewrite parseChars_quoteChars.
  change (skipWs (58 :: ?x)) with (58 :: x).
  change (58 =? 58) with true. cbv iota.
  rewrite parseValue_quote. reflexivity.
Qed.

Lemma skipWs_members props x :
  props <> [] ->
  skipWs (stringifyMembers props ++ x) = stringifyMembers props ++ x.
Proof.
  destruct props as [|[k v] [|p r]]; [congruence|..]; intros _;
    cbn [stringifyMembers]; unfold quote at 1; reflexivity.
Qed.

Lemma parseMembers_stringify props :
  props <> [] ->
  forall fuel acc rest,
    (length props < fuel)%nat ->
    parseMembers fuel (stringifyMembers props ++ 125 :: rest) acc
    = Ok (JObject (fromStrings props acc)) rest.
Proof.
  induction props as [|[k v] r IH]; [congruence|]. intros _ fuel acc rest Hf.
  destruct fuel as [|[|f]]; cbn [length] in Hf; try lia.
  destruct r as [|p r].
  - cbn [stringifyMembers].
    rewrite <- app_assoc. cbn [app].
    rewrite parseMembers_member. reflexivity.
  - change (stringifyMembers ((k, v) :: p :: r))
      with (quote k ++ 58 :: quote v ++ 44 :: stringifyMembers (p :: r)).
    rewrite <- app_assoc. cbn [app]. rewrite <- app_assoc. cbn [app].
    rewrite parseMembers_member.
    change (skipWs (44 :: ?x)) with (44 :: x).
    change (44 =? 125) with false. change (44 =? 44) with true. cbv iota.
    rewrite skipWs_members by congruence.
    rewrite IH by (congruence || (cbn [length] in *; lia)).
    reflexivity.
Qed.

Lemma stringifyMembers_length props :
  (length props <= length (stringifyMembers props))%nat.
Proof.
  induction props as [|[k v] [|p r] IH]; cbn [stringifyMembers length] in *;
    [lia| |].
  - unfold quote. cbn [length app]. lia.
  - unfold quote at 1. cbn [length app].
    rewrite !length_app. cbn [length]. rewrite length_app. cbn [length]. lia.
Qed.

(** [JSON.parse] undoes [JSON.stringify] on objects with string values. *)
Theorem parse_stringify props :
  parse (stringify props)
  = Some (JObject (fromStrings props [])).
Proof.
  unfold parse, stringify.
  destruct props as [|p r].
  - reflexivity.
  - cbn [parseValue].
    change (skipWs (123 :: ?x)) with (123 :: x).
    change (123 =? 34) with false. change (123 =? 123) with true. cbv iota.
    rewrite skipWs_members by congruence.
    pose proof (stringifyMembers_length (p :: r)) as Hl.
    destruct (stringifyMembers (p :: r) ++ [125]) as [|c' r'] eqn:E.
    { destruct (stringifyMembers (p :: r)); discriminate. }
    destruct (N.eqb_spec c' 125) as [->|Hne].
    { destruct p as [k v], r; cbn [stringifyMembers] in E;
        rewrite quote_app in E; discriminate. }
    rewrite <- E.
    rewrite parseMembers_stringify; [reflexivity|congruence|].
    cbn [length] in *. rewrite length_app. cbn [length]. lia.
Qed.

(** *** The recursion budget of [parse] is sufficient *)

Lemma skipWs_length s : (length (skipWs s) <= length s)%nat.
Proof.
  induction s as [|c r IH]; cbn [skipWs length]; [lia|].
  destruct (isWs c); cbn [length]; lia.
Qed.

Lemma parseChars_length s :
  forall k rest, parseChars s = Some (k, rest) ->
                 (length rest < length s)%nat.
Proof.
  enough (H : forall n s, (length s <= n)%nat ->
              forall k rest, parseChars s = Some (k, rest) ->
                             (length rest < length s)%nat) by eauto.
  clear s.
  induction n as [|n IH]; intros [|c r] Hle k rest; cbn [length] in *;
    try lia; try discriminate.
  assert (Hstep : forall u x k rest,
             (length x <= n)%nat ->
             consChar u (parseChars x) = Some (k, rest) ->
             (length rest < S (length x))%nat).
  { intros u x k' rest' Hx H. unfold consChar in H.
    destruct (parseChars x) as [[k0 r0]|] eqn:E; [|discriminate].
    injection H as <- <-. apply IH in E; lia. }
  cbn [parseChars].
  destruct (c =? 34); [intros [= <- <-]; lia|].
  destruct (c =? 92).
  - destruct r as [|e r1]; [discriminate|]. cbn [length] in *.
    destruct (e =? 117).
    + destruct r1 as [|h1 [|h2 [|h3 [|h4 r2]]]]; try discriminate.
      cbn [length] in *.
      destruct (hex4 h1 h2 h3 h4); [|discriminate].
      intros H. apply Hstep in H; lia.
    + destruct (unescape e); [|discriminate].
      intros H. apply Hstep in H; lia.
  - destruct (c <? 32); [discriminate|].
    intros H. apply Hstep in H; lia.
Qed.

Lemma takeDigits_length s :
  (length (snd (takeDigits s)) <= length s)%nat.
Proof.
  induction s as [|c r IH]; cbn [takeDigits length snd]; [lia|].
  destruct (isDigit c); [|cbn [snd length]; lia].
  destruct (takeDigits r); cbn [snd] in *. lia.
Qed.

Lemma parseInt_length s ds rest :
  parseInt s = Some (ds, rest) -> (length rest < length s)%nat.
Proof.
  destruct s as [|c r]; [discriminate|]. unfold parseInt.
  destruct (c =? 48); [intros [= <- <-]; cbn [length]; lia|].
  destruct (isDigit c) eqn:Hd; [|discriminate].
  intros [= H]. cbn [takeDigits] in H. rewrite Hd in H.
  pose proof (takeDigits_length r) as Hl.
  destruct (takeDigits r) as [ds' rest']. injection H as <- <-.
  cbn [snd length] in *. lia.
Qed.

Lemma parseFrac_length s ds rest :
  parseFrac s = Some (ds, rest) -> (length rest <= length s)%nat.
Proof.
  destruct s as [|c r]; [intros [= <- <-]; lia|]. unfold parseFrac.
  destruct (c =? 46); [|intros [= <- <-]; lia].
  pose proof (takeDigits_length r) as Hl.
  destruct (takeDigits r) as [[|d ds'] rest']; [discriminate|].
  intros [= <- <-]. cbn [snd length] in *. lia.
Qed.

Lemma parseExp_length s e rest :
  parseExp s = Some (e, rest) -> (length rest <= length s)%nat.
Proof.
  destruct s as [|c r]; [intros [= <- <-]; lia|]. unfold parseExp.
  destruct ((c =? 101) || (c =? 69)); [|intros [= <- <-]; lia].
  set (p := match r with
            | g :: r' => if g =? 45 then (true, r')
                         else if g =? 43 then (false, r') else (false, r)
            | [] => (false, r)
            end).
  assert (Hp : (length (snd p) <= length r)%nat).
  { subst p. destruct r as [|g r']; [cbn; lia|].
    destruct (g =? 45), (g =? 43); cbn [snd length]; lia. }
  destruct p as [minus r1]. cbn [snd] in Hp.
  pose proof (takeDigits_length r1) as Hl.
  destruct (takeDigits r1) as [[|d ds'] rest']; [discriminate|].
  intros [= _ <-]. cbn [snd length] in *. lia.
Qed.

Lemma parseNumber_length s n rest :
  parseNumber s = Some (n, rest) -> (length rest < length s)%nat.
Proof.
  unfold parseNumber.
  set (p := match s with
            | c :: r => if c =? 45 then (true, r) else (false, s)
            | [] => (false, s)
            end).
  assert (Hp : (length (snd p) <= length s)%nat).
  { subst p. destruct s as [|c r]; [cbn; lia|].
    destruct (c =? 45); cbn [snd length]; lia. }
  destruct p as [neg s1]. cbn [snd] in Hp.
  destruct (parseInt s1) as [[ip s2]|] eqn:E1; [|discriminate].
  destruct (parseFrac s2) as [[fp s3]|] eqn:E2; [|discriminate].
  destruct (parseExp s3) as [[e s4]|] eqn:E3; [|discriminate].
  intros [= _ <-].
  apply parseInt_length in E1. apply parseFrac_length in E2.
  apply parseExp_length in E3. lia.
Qed.

Lemma dropPrefix_length p s rest :
  dropPrefix p s = Some rest -> length s = (length p + length rest)%nat.
Proof.
  revert s. induction p as [|a p IH]; intros [|b s]; cbn [dropPrefix length];
    try discriminate; try (intros [= <-]; reflexivity).
  destruct (a =? b); [|discriminate]. intros H. apply IH in H. lia.
Qed.

Lemma progress_weaken s1 s2 r :
  progress s1 r -> (length s1 <= length s2)%nat -> progress s2 r.
Proof.
  intros [H1 H2] Hl. split; [assumption|].
  intros v rest E. apply H2 in E. lia.
Qed.

Lemma progress_error s : progress s SyntaxError.
Proof. split; [discriminate|]. intros v rest [=]. Qed.

Lemma progress_ok s v rest :
  (length rest < length s)%nat -> progress s (Ok v rest).
Proof.
  intros Hl. split; [discriminate|]. intros v' rest' [= <- <-]. exact Hl.
Qed.

Lemma progress_literal w v s :
  w <> [] -> progress s (parseLiteral w v s).
Proof.
  intros Hw. unfold parseLiteral.
  destruct (dropPrefix w s) as [rest|] eqn:E; [|apply progress_error].
  apply progress_ok. apply dropPrefix_length in E.
  destruct w; [congruence|]. cbn [length] in E. lia.
Qed.

Lemma progress_all fuel :
  (forall s, (2 * length s < fuel)%nat -> progress s (parseValue fuel s))
  /\ (forall s acc, (2 * length s + 1 < fuel)%nat ->
                    progress s (parseMembers fuel s acc))
  /\ (forall s acc, (2 * length s + 1 < fuel)%nat ->
                    progress s (parseElements fuel s acc)).
Proof.
  induction fuel as [|f (IHv & IHm & IHe)]; [repeat split; lia|].
  split; [|split].
  - intros s Hf. cbn [parseValue].
    pose proof (skipWs_length s) as Hs.
    destruct (skipWs s) as [|c r]; [apply progress_error|].
    cbn [length] in Hs.
    destruct (c =? 34).
    { destruct (parseChars r) as [[str rest]|] eqn:E;
        [|apply progress_error].
      apply progress_ok. apply parseChars_length in E. lia. }
    destruct (c =? 123).
    { pose proof (skipWs_length r) as Hr.
      destruct (skipWs r) as [|c' r']; [apply progress_error|].
      cbn [length] in Hr.
      destruct (c' =? 125); [apply progress_ok; lia|].
      apply (progress_weaken (c' :: r')); [|cbn [length]; lia].
      apply IHm. cbn [length]. lia. }
    destruct (c =? 91).
    { pose proof (skipWs_length r) as Hr.
      destruct (skipWs r) as [|c' r']; [apply progress_error|].
      cbn [length] in Hr.
      destruct (c' =? 93); [apply progress_ok; lia|].
      apply (progress_weaken (c' :: r')); [|cbn [length]; lia].
      apply IHe. cbn [length]. lia. }
    destruct (c =? 110).
    { apply (progress_weaken (c :: r)); [|cbn [length]; lia].
      apply progress_literal. discriminate. }
    destruct (c =? 116).
    { apply (progress_weaken (c :: r)); [|cbn [length]; lia].
      apply progress_literal. discriminate. }
    destruct (c =? 102).
    { apply (progress_weaken (c :: r)); [|cbn [length]; lia].
      apply progress_literal. discriminate. }
    destruct (parseNumber (c :: r)) as [[n rest]|] eqn:E;
      [|apply progress_error].
    apply progress_ok. apply parseNumber_length in E.
    cbn [length] in E. lia.
  - intros s acc Hf. cbn [parseMembers].
    destruct s as [|c r]; [apply progress_error|]. cbn [length] in Hf.
    destruct (c =? 34); [|apply progress_error].
    destruct (parseChars r) as [[k s1]|] eqn:E1; [|apply progress_error].
    apply parseChars_length in E1.
    pose proof (skipWs_length s1) as H1.
    destruct (skipWs s1) as [|c1 s2]; [apply progress_error|].
    cbn [length] in H1.
    destruct (c1 =? 58); [|apply progress_error].
    destruct (IHv s2 ltac:(lia)) as [Hnf Hlen].
    destruct (parseValue f s2) as [v s3| |]; [|apply progress_error|congruence].
    specialize (Hlen v s3 eq_refl).
    pose proof (skipWs_length s3) as H3.
    destruct (skipWs s3) as [|c3 s4]; [apply progress_error|].
    cbn [length] in H3.
    destruct (c3 =? 125); [apply progress_ok; cbn [length]; lia|].
    destruct (c3 =? 44); [|apply progress_error].
    pose proof (skipWs_length s4) as H4.
    apply (progress_weaken (skipWs s4)); [|cbn [length]; lia].
    apply IHm. lia.
  - intros s acc Hf. cbn [parseElements].
    destruct (IHv s ltac:(lia)) as [Hnf Hlen].
    destruct (parseValue f s) as [v s1| |]; [|apply progress_error|congruence].
    specialize (Hlen v s1 eq_refl).
    pose proof (skipWs_length s1) as H1.
    destruct (skipWs s1) as [|c s2]; [apply progress_error|].
    cbn [length] in H1.
    destruct (c =? 93); [apply progress_ok; lia|].
    destruct (c =? 44); [|apply progress_error].
    apply (progress_weaken s2); [|lia].
    apply IHe. lia.
Qed.

(** [parse] never reports a SyntaxError for want of budget. *)
Theorem parse_fuel text :
  parseValue (S (2 * length text)) text <> OutOfFuel.
Proof. apply (progress_all (S (2 * length text))). lia. Qed.
End JSONFacts.

(** ** The handler, case by case *)

Section Handler.
Variable ledger : list BatchRecord.

Lemma str_eqb_eq a b : str_eqb a b = true <-> a = b.
Proof. unfold str_eqb. apply bool_decide_eq_true. Qed.

Lemma strictEq_spec s v : strictEq s v = true <-> v = Some (JString s).
Proof.
  unfold strictEq. destruct v as [[]|]; try (split; [discriminate|congruence]).
  rewrite str_eqb_eq. split; congruence.
Qed.

Lemma matches_spec d r : matches d r = true <-> sameTriple d r.
Proof.
  unfold matches, sameTriple.
  rewrite !andb_true_iff, !strictEq_spec. tauto.
Qed.

Lemma templateKey_matched d r :
  matches d r = true -> templateKey d = Some (keyOf r).
Proof.
  intros (Hi & Hb & Hc)%matches_spec. unfold templateKey.
  rewrite Hi, Hb, Hc. reflexivity.
Qed.

Lemma verifyOn_invalid env token st :
  decodeToken (trim token) = None ->
  verifyOn ledger env token st
  = Some {| scanned := scanned st;
            verifyResult := Some (failure reasonInvalidToken None);
            duplicateFlag := false |}.
Proof. intros H. unfold verifyOn. rewrite H. reflexivity. Qed.

Lemma verifyOn_nomatch env token st d :
  decodeToken (trim token) = Some d ->
  List.find (matches d) ledger = None ->
  verifyOn ledger env token st
  = Some {| scanned := scanned st;
            verifyResult := Some (failure reasonNoMatch None);
            duplicateFlag := false |}.
Proof. intros H1 H2. unfold verifyOn. rewrite H1, H2. reflexivity. Qed.

Lemma verifyOn_matched env token st d m :
  decodeToken (trim token) = Some d ->
  List.find (matches d) ledger = Some m ->
  verifyOn ledger env token st
  = Some {| scanned := if bool_decide (keyOf m ∈ scanned st)
                       then scanned st else {[keyOf m]} ∪ scanned st;
            verifyResult := Some (ruleResult env m);
            duplicateFlag := bool_decide (keyOf m ∈ scanned st) |}.
Proof.
  intros H1 H2. unfold verifyOn. rewrite H1, H2.
  apply find_some in H2 as [_ Hm].
  rewrite (templateKey_matched d m Hm). unfold ruleResult.
  cbn [setDuplicateFlag scanned verifyResult duplicateFlag].
  destruct (bool_decide (keyOf m ∈ scanned st));
    destruct (str_eqb (status m) (js "recalled")); try reflexivity;
    destruct (dateGt (clock env) (newDate env (exp m ++ js "T23:59:59")));
    reflexivity.
Qed.

(** The handler always completes inside the model. *)
Lemma verifyOn_total env token st :
  exists st', verifyOn ledger env token st = Some st'.
Proof.
  destruct (decodeToken (trim token)) as [d|] eqn:Hd.
  - destruct (List.find (matches d) ledger) as [m|] eqn:Hf.
    + rewrite (verifyOn_matched env token st d m Hd Hf). eauto.
    + rewrite (verifyOn_nomatch env token st d Hd Hf). eauto.
  - rewrite (verifyOn_invalid env token st Hd). eauto.
Qed.

(** A run reads the seen-set of the state it starts from and nothing else
    of it. *)
Lemma verifyOn_scanned_only env token st1 st2 :
  scanned st1 = scanned st2 ->
  verifyOn ledger env token st1 = verifyOn ledger env token st2.
Proof.
  intros Hs.
  destruct (decodeToken (trim token)) as [d|] eqn:Hd.
  - destruct (List.find (matches d) ledger) as [m|] eqn:Hf.
    + rewrite (verifyOn_matched env token st1 d m Hd Hf),
        (verifyOn_matched env token st2 d m Hd Hf).
      now rewrite Hs.
    + rewrite (verifyOn_nomatch env token st1 d Hd Hf),
        (verifyOn_nomatch env token st2 d Hd Hf).
      now rewrite Hs.
  - rewrite (verifyOn_invalid env token st1 Hd),
      (verifyOn_invalid env token st2 Hd).
    now rewrite Hs.
Qed.

Lemma find_sameTriple d :
  (exists r, In r ledger /\ sameTriple d r)
  <-> exists m, List.find (matches d) ledger = Some m.
Proof.
  split.
  - intros (r & Hin & Ht).
    destruct (List.find (matches d) ledger) as [m|] eqn:Hf; [eauto|].
    exfalso. apply (find_none _ _ Hf) in Hin.
    apply matches_spec in Ht. congruence.
  - intros [m Hf]. apply find_some in Hf as [Hin Hm].
    exists m. split; [assumption|]. now apply matches_spec.
Qed.

Lemma ruleResult_data env m : data (ruleResult env m) = Some m.
Proof.
  unfold ruleResult. destruct (str_eqb _ _); [reflexivity|].
  destruct (dateGt (clock env) _); reflexivity.
Qed.

Lemma ruleResult_not_reject env m :
  ruleResult env m <> failure reasonInvalidToken None
  /\ ruleResult env m <> failure reasonNoMatch None.
Proof.
  split; intros H; apply (f_equal data) in H;
    rewrite ruleResult_data in H; discriminate.
Qed.

End Handler.

(** ** The verification engine against its specification *)

Import JSON JSONFacts.

Example encode_paracetamol : encodeToken paracetamol = Some demoToken.
Proof. vm_compute. reflexivity. Qed.

Example decode_demoToken :
  decodeToken (trim demoToken)
  = Some (claimOf (js "MED-001") (js "B456789") (js "f9a2")).
Proof. vm_compute. reflexivity. Qed.

Example decode_wrong_marker :
  decodeToken
    (js "eyJ0IjoiT1RIRVIiLCJpZCI6Ik1FRC0wMDEiLCJiIjoiQjQ1Njc4OSIsImMiOiJmOWEyIn0=")
  = None.
Proof. vm_compute. reflexivity. Qed.

(** *** Ledger match *)

(** C1. For every decoded claim [d], the handler reports a matched record
    only if that record is on the ledger and its id, batch and checksum are
    exactly the strings the claim carries; and when no record of the ledger
    agrees with the claim on all three fields, whatever the partial
    agreement, the outcome is the no-match failure, with no record
    attached, the seen-set untouched and the duplicate flag off. *)
Theorem exact_match_required ledger env token st d :
  decodeToken (trim token) = Some d ->
  exists st',
    verifyOn ledger env token st = Some st'
    /\ (forall res r, verifyResult st' = Some res -> data res = Some r ->
                      In r ledger /\ sameTriple d r)
    /\ ((forall r, In r ledger -> ~ sameTriple d r) ->
        st' = {| scanned := scanned st;
                 verifyResult := Some (failure reasonNoMatch None);
                 duplicateFlag := false |}).
Proof.
  intros Hd.
  destruct (List.find (matches d) ledger) as [m|] eqn:Hf.
  - rewrite (verifyOn_matched ledger env token st d m Hd Hf).
    eexists. split; [reflexivity|]. split.
    + cbn [verifyResult]. intros res r [= <-] Hr.
      rewrite ruleResult_data in Hr. injection Hr as <-.
      apply find_some in Hf as [Hin Hm]. split; [assumption|].
      now apply matches_spec.
    + intros Hno. exfalso. apply find_some in Hf as [Hin Hm].
      apply (Hno m Hin). now apply matches_spec.
  - rewrite (verifyOn_nomatch ledger env token st d Hd Hf).
    eexists. split; [reflexivity|]. split.
    + cbn [verifyResult]. intros res r [= <-] Hr. discriminate.
    + reflexivity.
Qed.

(** The theorem at the token of MED-001 / B456789 with checksum ffff. *)
Lemma exact_match_required_witness :
  decodeToken (trim wrongChecksumToken)
  = Some (claimOf (js "MED-001") (js "B456789") (js "ffff"))
  /\ exists st',
      verifyOn mockLedger (utcHost 0) wrongChecksumToken initialState = Some st'
      /\ (forall res r, verifyResult st' = Some res -> data res = Some r ->
                        In r mockLedger
                        /\ sameTriple
                             (claimOf (js "MED-001") (js "B456789") (js "ffff")) r)
      /\ ((forall r, In r mockLedger ->
                     ~ sameTriple
                         (claimOf (js "MED-001") (js "B456789") (js "ffff")) r) ->
          st' = {| scanned := scanned initialState;
                   verifyResult := Some (failure reasonNoMatch None);
                   duplicateFlag := false |}).
Proof.
  split; [vm_compute; reflexivity|].
  apply (exact_match_required mockLedger (utcHost 0) wrongChecksumToken
           initialState).
  vm_compute. reflexivity.
Defined.

Example wrong_checksum_is_no_match :
  handleVerify (utcHost 0) wrongChecksumToken initialState ≫= verifyResult
  = Some (failure reasonNoMatch None).
Proof. vm_compute. reflexivity. Qed.

Example lower_case_id_is_no_match :
  handleVerify (utcHost 0) lowerCaseToken initialState ≫= verifyResult
  = Some (failure reasonNoMatch None).
Proof. vm_compute. reflexivity. Qed.

(** *** Decoding *)

(** C2, as stated, fails: the payload that holds the marker and none of
    id, b, c decodes to a claim. *)
Lemma decode_without_fields :
  decodeToken markerOnlyToken = Some (JObject [(js "t", JString marker)])
  /\ triple (JObject [(js "t", JString marker)]) = (None, None, None).
Proof. split; vm_compute; reflexivity. Qed.

(** C2, amended. [decodeToken] returns a claim exactly when the token is
    forgiving-base64, the decoded text is JSON, and the parsed value has
    an own property [t] equal to the marker; in every other case it
    returns null.  The presence of id, b and c plays no part. *)
Theorem decodeToken_spec token j :
  decodeToken token = Some j
  <-> exists text,
        Base64.atob token = Some text
        /\ JSON.parse text = Some j
        /\ getProp j (js "t") = Some (JString marker).
Proof.
  unfold decodeToken. split.
  - destruct (Base64.atob token) as [text|] eqn:Ha; [|discriminate].
    destruct (JSON.parse text) as [j'|] eqn:Hp; [|discriminate].
    destruct (truthy j'); [|discriminate]. cbn [negb orb].
    destruct (strictEq marker (getProp j' (js "t"))) eqn:E; [|discriminate].
    intros [= <-]. exists text.
    split; [reflexivity|]. split; [exact Hp|]. now apply strictEq_spec.
  - intros (text & -> & -> & Ht).
    assert (Hobj : truthy j = true)
      by (destruct j; try discriminate; reflexivity).
    apply strictEq_spec in Ht. rewrite Hobj, Ht. reflexivity.
Qed.

(** A claim that lacks one of the three fields is turned away by the
    ledger lookup instead. *)
Lemma missing_field_never_matches d r :
  getProp d (js "id") = None \/ getProp d (js "b") = None
  \/ getProp d (js "c") = None ->
  matches d r = false.
Proof.
  intros H. destruct (matches d r) eqn:E; [|reflexivity].
  apply matches_spec in E as (Hi & Hb & Hc).
  destruct H as [H|[H|H]]; congruence.
Qed.

(** *** The clock *)

Example epoch : localTime 1970 1 1 0 0 0 0 = 0%Z.
Proof. reflexivity. Qed.

Example end_of_august_2027 :
  localTime 2027 8 31 23 59 59 0 = 1819756799000%Z.
Proof. reflexivity. Qed.

Example leap_day_2028 :
  (localTime 2028 3 1 0 0 0 0 - localTime 2028 2 28 0 0 0 0 = 2 * 86400000)%Z.
Proof. reflexivity. Qed.

(** The same token on the same state is accepted at one reading of the
    clock and rejected at the next. *)
Example verdict_changes_with_the_clock :
  (handleVerify (utcHost (localTime 2027 8 31 23 59 59 0)) demoToken
     initialState ≫= verifyResult)
  = Some (success paracetamol)
  /\ (handleVerify (utcHost (localTime 2027 9 1 0 0 0 0)) demoToken
        initialState ≫= verifyResult)
     = Some (failure reasonExpired (Some paracetamol)).
Proof. split; vm_compute; reflexivity. Qed.

(** [verifyOn] is [verifyProgram] with its requests answered by the
    environment. *)
Lemma run_verifyProgram ledger env token st :
  run env (verifyProgram ledger token st) = verifyOn ledger env token st.
Proof.
  unfold verifyProgram, verifyOn.
  destruct (decodeToken (trim token)) as [d|]; [|reflexivity].
  destruct (List.find (matches d) ledger) as [m|]; [|reflexivity].
  destruct (templateKey d) as [key|]; [|reflexivity].
  cbn [run answer].
  destruct (str_eqb (status m) (js "recalled")); [reflexivity|].
  destruct (dateGt (clock env) (newDate env (exp m ++ js "T23:59:59")));
    reflexivity.
Qed.

(** The program asks for the clock exactly on the calls whose claim
    matches a ledger record. *)
Lemma verifyProgram_asks ledger token st :
  (exists d m, decodeToken (trim token) = Some d
               /\ List.find (matches d) ledger = Some m)
  <-> exists k, verifyProgram ledger token st = Ask Now k.
Proof.
  unfold verifyProgram. split.
  - intros (d & m & Hd & Hf). rewrite Hd, Hf.
    apply find_some in Hf as [_ Hm].
    rewrite (templateKey_matched d m Hm). eexists. reflexivity.
  - intros [k Hk].
    destruct (decodeToken (trim token)) as [d|] eqn:Hd; [|discriminate Hk].
    destruct (List.find (matches d) ledger) as [m|] eqn:Hf;
      [|discriminate Hk].
    now exists d, m.
Qed.

Lemma verifyOn_same_answers ledger e1 e2 token st1 st2 :
  clock e1 = clock e2 ->
  (forall t, utcOfLocal e1 t = utcOfLocal e2 t) ->
  scanned st1 = scanned st2 ->
  verifyOn ledger e1 token st1 = verifyOn ledger e2 token st2.
Proof.
  intros Hc Hu Hs.
  destruct (decodeToken (trim token)) as [d|] eqn:Hd.
  - destruct (List.find (matches d) ledger) as [m|] eqn:Hf.
    + rewrite (verifyOn_matched ledger e1 token st1 d m Hd Hf),
        (verifyOn_matched ledger e2 token st2 d m Hd Hf).
      rewrite Hs. do 2 f_equal. unfold ruleResult, newDate.
      rewrite Hc. destruct (DateModel.parseLocal _); [rewrite Hu|]; reflexivity.
    + rewrite (verifyOn_nomatch ledger e1 token st1 d Hd Hf),
        (verifyOn_nomatch ledger e2 token st2 d Hd Hf).
      now rewrite Hs.
  - rewrite (verifyOn_invalid ledger e1 token st1 Hd),
      (verifyOn_invalid ledger e2 token st2 Hd).
    now rewrite Hs.
Qed.

(** C3, as stated, fails: the instant is no input of the handler.  Given
    the token of MED-001 and the initial state, and nothing else, the
    handler itself asks the system clock for the instant, and what it goes
    on to do is decided by the answer: success for one reading, the
    expired failure for the next. *)
Lemma handler_asks_the_clock :
  exists k,
    handleVerifyProgram demoToken initialState = Ask Now k
    /\ (run (utcHost 0) (k (localTime 2027 8 31 23 59 59 0)) ≫= verifyResult)
       = Some (success paracetamol)
    /\ (run (utcHost 0) (k (localTime 2027 9 1 0 0 0 0)) ≫= verifyResult)
       = Some (failure reasonExpired (Some paracetamol)).
Proof.
  assert (Hf : List.find
                 (matches (claimOf (js "MED-001") (js "B456789") (js "f9a2")))
                 mockLedger = Some paracetamol) by (vm_compute; reflexivity).
  unfold handleVerifyProgram, verifyProgram.
  rewrite decode_demoToken, Hf.
  change (templateKey (claimOf (js "MED-001") (js "B456789") (js "f9a2")))
    with (Some (js "MED-001-B456789-f9a2")).
  eexists. split; [reflexivity|].
  split; vm_compute; reflexivity.
Qed.

(** C3, amended. The instant is read inside the handler: the handler takes
    the token alone and, on exactly the calls whose claim matches a ledger
    record, asks the system clock for it.  With the requests of the handler
    answered by the host it is the handler of the claims above; and for a
    fixed token, a fixed seen-set, a fixed reading of the clock and a fixed
    local time zone, two runs end in the same state, whatever result and
    duplicate flag an earlier run had left behind. *)
Theorem instant_read_inside_handler ledger token st :
  ((exists d m, decodeToken (trim token) = Some d
                /\ List.find (matches d) ledger = Some m)
   <-> exists k, verifyProgram ledger token st = Ask Now k)
  /\ (forall env,
        run env (verifyProgram ledger token st) = verifyOn ledger env token st)
  /\ (forall e1 e2 st2,
        clock e1 = clock e2 ->
        (forall t, utcOfLocal e1 t = utcOfLocal e2 t) ->
        scanned st = scanned st2 ->
        run e1 (verifyProgram ledger token st)
        = run e2 (verifyProgram ledger token st2)).
Proof.
  split; [apply verifyProgram_asks|]. split.
  - intros env. apply run_verifyProgram.
  - intros e1 e2 st2 Hc Hu Hs. rewrite !run_verifyProgram.
    now apply verifyOn_same_answers.
Qed.

Lemma instant_read_inside_handler_witness :
  let e1 := utcHost 0 in
  let e2 := {| clock := 0; utcOfLocal := fun t => (t + 0)%Z |} in
  let st1 := {| scanned := {[keyOf paracetamol]}; verifyResult := None;
                duplicateFlag := false |} in
  (exists k, verifyProgram mockLedger demoToken st1 = Ask Now k)
  /\ clock e1 = clock e2
  /\ (forall t, utcOfLocal e1 t = utcOfLocal e2 t)
  /\ scanned st1 = scanned rescanned
  /\ run e1 (verifyProgram mockLedger demoToken st1)
     = run e2 (verifyProgram mockLedger demoToken rescanned).
Proof.
  intros e1 e2 st1.
  destruct (instant_read_inside_handler mockLedger demoToken st1)
    as (Hask & _ & Hsame).
  assert (Hu : forall t, utcOfLocal e1 t = utcOfLocal e2 t)
    by (intros t; cbn; lia).
  split.
  { apply Hask.
    exists (claimOf (js "MED-001") (js "B456789") (js "f9a2")), paracetamol.
    split; vm_compute; reflexivity. }
  split; [reflexivity|]. split; [exact Hu|]. split; [reflexivity|].
  apply Hsame; [reflexivity|exact Hu|reflexivity].
Defined.

(** *** Expiry *)

(** A matched record that is not recalled is expired exactly when the
    clock is past 23:59:59.000, local time, of its expiry date. *)
Lemma expiry_rule ledger env token st d m t :
  decodeToken (trim token) = Some d ->
  List.find (matches d) ledger = Some m ->
  status m <> js "recalled" ->
  DateModel.parseLocal (exp m ++ js "T23:59:59") = Some t ->
  exists st',
    verifyOn ledger env token st = Some st'
    /\ verifyResult st'
       = Some (if (utcOfLocal env t <? clock env)%Z
               then failure reasonExpired (Some m) else success m).
Proof.
  intros Hd Hf Hs Ht.
  rewrite (verifyOn_matched ledger env token st d m Hd Hf).
  eexists. split; [reflexivity|]. cbn [verifyResult].
  unfold ruleResult, newDate. rewrite Ht. cbn [dateGt].
  destruct (str_eqb (status m) (js "recalled")) eqn:E.
  - apply str_eqb_eq in E. contradiction.
  - destruct (_ <? _)%Z; reflexivity.
Qed.

(** A day past the end of its month runs over into the next month. *)
Example february_30 :
  DateModel.parseLocal (js "2027-02-30T23:59:59")
  = Some (localTime 2027 3 2 23 59 59 0).
Proof. reflexivity. Qed.

Lemma paracetamol_expiry :
  DateModel.parseLocal (exp paracetamol ++ js "T23:59:59")
  = Some (localTime 2027 8 31 23 59 59 0).
Proof. vm_compute. reflexivity. Qed.

(** The two instants the specification names behave as it says. *)
Example expiry_boundary_valid :
  handleVerify (utcHost (localTime 2027 8 31 23 59 59 0)) demoToken initialState
    ≫= verifyResult
  = Some (success paracetamol).
Proof. vm_compute. reflexivity. Qed.

Example expiry_boundary_expired :
  handleVerify (utcHost (localTime 2027 9 1 0 0 0 0)) demoToken initialState
    ≫= verifyResult
  = Some (failure reasonExpired (Some paracetamol)).
Proof. vm_compute. reflexivity. Qed.

(** C4. The whole expiry day ought to be valid; the handler, however,
    compares against 23:59:59.000 and so already rejects MED-001 (expiry
    date 2027-08-31, active) half a second before that day is over. *)
Theorem expired_within_expiry_day :
  let now := localTime 2027 8 31 23 59 59 500 in
  (localTime 2027 8 31 0 0 0 0 <= now < localTime 2027 9 1 0 0 0 0)%Z
  /\ exp paracetamol = js "2027-08-31"
  /\ status paracetamol = js "active"
  /\ handleVerify (utcHost now) demoToken initialState ≫= verifyResult
     = Some (failure reasonExpired (Some paracetamol)).
Proof. repeat split; vm_compute; reflexivity || congruence. Qed.

(** *** Recall *)

(** C5. A matched record whose status is recalled yields the recalled
    failure at every reading of the clock and in every time zone, hence
    also once its expiry date has passed. *)
Theorem recall_precedence ledger env token st d m :
  decodeToken (trim token) = Some d ->
  List.find (matches d) ledger = Some m ->
  status m = js "recalled" ->
  exists st',
    verifyOn ledger env token st = Some st'
    /\ verifyResult st' = Some (failure reasonRecalled (Some m)).
Proof.
  intros Hd Hf Hs.
  rewrite (verifyOn_matched ledger env token st d m Hd Hf).
  eexists. split; [reflexivity|]. cbn [verifyResult].
  unfold ruleResult. rewrite Hs. reflexivity.
Qed.

(** The theorem at MED-004 in 2030, long after its expiry date. *)
Lemma recall_precedence_witness :
  let env := utcHost (localTime 2030 1 1 0 0 0 0) in
  let d := claimOf (js "MED-004") (js "I220015") (js "c0de") in
  decodeToken (trim recalledToken) = Some d
  /\ List.find (matches d) mockLedger = Some ibuprofen
  /\ status ibuprofen = js "recalled"
  /\ dateGt (clock env) (newDate env (exp ibuprofen ++ js "T23:59:59")) = true
  /\ exists st',
      verifyOn mockLedger env recalledToken initialState = Some st'
      /\ verifyResult st' = Some (failure reasonRecalled (Some ibuprofen)).
Proof.
  intros env d.
  split; [vm_compute; reflexivity|].
  split; [vm_compute; reflexivity|].
  split; [vm_compute; reflexivity|].
  split; [vm_compute; reflexivity|].
  apply (recall_precedence mockLedger env recalledToken initialState d ibuprofen);
    vm_compute; reflexivity.
Defined.

(** *** The seen-set *)

(** C6. A call that ends in the invalid-token failure or in the no-match
    failure leaves the seen-set exactly as it was, so that every later
    call runs as if the rejected one had not taken place. *)
Theorem rejected_calls_keep_scanned ledger env token st st' :
  verifyOn ledger env token st = Some st' ->
  verifyResult st' = Some (failure reasonInvalidToken None)
  \/ verifyResult st' = Some (failure reasonNoMatch None) ->
  scanned st' = scanned st
  /\ forall env2 token2,
      verifyOn ledger env2 token2 st' = verifyOn ledger env2 token2 st.
Proof.
  intros Hrun Hres.
  assert (Hs : scanned st' = scanned st).
  { destruct (decodeToken (trim token)) as [d|] eqn:Hd.
    - destruct (List.find (matches d) ledger) as [m|] eqn:Hf.
      + rewrite (verifyOn_matched ledger env token st d m Hd Hf) in Hrun.
        injection Hrun as <-. cbn [verifyResult] in Hres.
        destruct (ruleResult_not_reject env m) as [H1 H2].
        destruct Hres as [[= H]|[= H]]; congruence.
      + rewrite (verifyOn_nomatch ledger env token st d Hd Hf) in Hrun.
        injection Hrun as <-. reflexivity.
    - rewrite (verifyOn_invalid ledger env token st Hd) in Hrun.
      injection Hrun as <-. reflexivity. }
  split; [exact Hs|].
  intros env2 token2. now apply verifyOn_scanned_only.
Qed.

(** The theorem at a token with a wrong checksum, presented after MED-001
    was scanned twice. *)
Lemma rejected_calls_keep_scanned_witness :
  let st' := {| scanned := scanned rescanned;
                verifyResult := Some (failure reasonNoMatch None);
                duplicateFlag := false |} in
  verifyOn mockLedger (utcHost 0) wrongChecksumToken rescanned = Some st'
  /\ (verifyResult st' = Some (failure reasonInvalidToken None)
      \/ verifyResult st' = Some (failure reasonNoMatch None))
  /\ scanned st' = scanned rescanned
  /\ forall env2 token2,
      verifyOn mockLedger env2 token2 st'
      = verifyOn mockLedger env2 token2 rescanned.
Proof.
  intros st'.
  assert (H : verifyOn mockLedger (utcHost 0) wrongChecksumToken rescanned
              = Some st') by (vm_compute; reflexivity).
  split; [exact H|]. split; [right; reflexivity|].
  apply (rejected_calls_keep_scanned mockLedger (utcHost 0) wrongChecksumToken
           rescanned st' H).
  right. reflexivity.
Defined.

Lemma verifyOn_scanned_mono ledger env token st st' :
  verifyOn ledger env token st = Some st' -> scanned st ⊆ scanned st'.
Proof.
  intros Hrun.
  destruct (decodeToken (trim token)) as [d|] eqn:Hd.
  - destruct (List.find (matches d) ledger) as [m|] eqn:Hf.
    + rewrite (verifyOn_matched ledger env token st d m Hd Hf) in Hrun.
      injection Hrun as <-. cbn [scanned].
      destruct (bool_decide _); set_solver.
    + rewrite (verifyOn_nomatch ledger env token st d Hd Hf) in Hrun.
      injection Hrun as <-. reflexivity.
  - rewrite (verifyOn_invalid ledger env token st Hd) in Hrun.
    injection Hrun as <-. reflexivity.
Qed.

Lemma runCalls_grows ledger calls :
  forall st, exists st',
    runCalls ledger calls st = Some st' /\ scanned st ⊆ scanned st'.
Proof.
  induction calls as [|[env token] rest IH]; intros st; cbn [runCalls].
  - exists st. split; reflexivity.
  - destruct (verifyOn_total ledger env token st) as [st1 H1]. rewrite H1.
    destruct (IH st1) as (st' & H2 & Hsub). exists st'. split; [assumption|].
    apply verifyOn_scanned_mono in H1. set_solver.
Qed.

(** C7. For a matched claim the key is the claim's id, batch and checksum
    joined by hyphens (U+002D), which are the id, batch and checksum of
    the matched record; if that key is in the seen-set the duplicate flag
    is raised and the set is left unchanged, otherwise the key is inserted
    and the flag stays off.  Over any sequence of calls the seen-set only
    grows. *)
Theorem duplicate_check_and_record ledger :
  (forall env token st d m,
      decodeToken (trim token) = Some d ->
      List.find (matches d) ledger = Some m ->
      let key := id m ++ 45 :: batch m ++ 45 :: checksum m in
      exists st',
        verifyOn ledger env token st = Some st'
        /\ sameTriple d m
        /\ templateKey d = Some key
        /\ (key ∈ scanned st ->
            duplicateFlag st' = true /\ scanned st' = scanned st)
        /\ (key ∉ scanned st ->
            duplicateFlag st' = false
            /\ scanned st' = {[key]} ∪ scanned st))
  /\ (forall calls st, exists st',
        runCalls ledger calls st = Some st' /\ scanned st ⊆ scanned st').
Proof.
  split; [|intros calls st; apply runCalls_grows].
  intros env token st d m Hd Hf key.
  rewrite (verifyOn_matched ledger env token st d m Hd Hf).
  apply find_some in Hf as [_ Hm].
  eexists. split; [reflexivity|]. split; [now apply matches_spec|]. split.
  { now apply templateKey_matched. }
  change (keyOf m) with key.
  cbn [scanned duplicateFlag]. split; intros Hk.
  - rewrite (bool_decide_eq_true_2 _ Hk). split; reflexivity.
  - rewrite (bool_decide_eq_false_2 _ Hk). split; reflexivity.
Qed.

Lemma duplicate_check_and_record_witness :
  let d := claimOf (js "MED-001") (js "B456789") (js "f9a2") in
  let key := js "MED-001-B456789-f9a2" in
  decodeToken (trim demoToken) = Some d
  /\ List.find (matches d) mockLedger = Some paracetamol
  /\ (exists st',
        verifyOn mockLedger (utcHost 0) demoToken initialState = Some st'
        /\ sameTriple d paracetamol
        /\ templateKey d = Some key
        /\ (key ∈ scanned initialState ->
            duplicateFlag st' = true /\ scanned st' = scanned initialState)
        /\ (key ∉ scanned initialState ->
            duplicateFlag st' = false
            /\ scanned st' = {[key]} ∪ scanned initialState))
  /\ (exists st',
        runCalls mockLedger
          [(utcHost 0, demoToken); (utcHost 0, wrongChecksumToken);
           (utcHost 0, demoToken)] initialState = Some st'
        /\ scanned initialState ⊆ scanned st').
Proof.
  intros d key.
  assert (H1 : decodeToken (trim demoToken) = Some d)
    by (vm_compute; reflexivity).
  assert (H2 : List.find (matches d) mockLedger = Some paracetamol)
    by (vm_compute; reflexivity).
  split; [exact H1|]. split; [exact H2|]. split.
  - exact (proj1 (duplicate_check_and_record mockLedger) (utcHost 0)
             demoToken initialState d paracetamol H1 H2).
  - apply (proj2 (duplicate_check_and_record mockLedger)).
Defined.

(** The key of a claim, character by character. *)
Example key_of_demo_claim :
  templateKey (claimOf (js "MED-001") (js "B456789") (js "f9a2"))
  = Some [77; 69; 68; 45; 48; 48; 49; 45; 66; 52; 53; 54; 55; 56; 57; 45;
          102; 57; 97; 50].
Proof. reflexivity. Qed.

(** The end-to-end scenario: a first scan, a second scan, and a scan after
    the expiry date. *)
Example end_to_end_scenario :
  let jan2026 := utcHost (localTime 2026 1 1 0 0 0 0) in
  let sep2027 := utcHost (localTime 2027 9 2 0 0 0 0) in
  (runCalls mockLedger [(jan2026, demoToken)] initialState
     ≫= fun st => Some (verifyResult st, duplicateFlag st))
  = Some (Some (success paracetamol), false)
  /\ (runCalls mockLedger [(jan2026, demoToken); (jan2026, demoToken)]
        initialState
        ≫= fun st => Some (verifyResult st, duplicateFlag st))
     = Some (Some (success paracetamol), true)
  /\ (runCalls mockLedger
        [(jan2026, demoToken); (jan2026, demoToken); (sep2027, demoToken)]
        initialState
        ≫= fun st => Some (verifyResult st, duplicateFlag st))
     = Some (Some (failure reasonExpired (Some paracetamol)), true).
Proof. repeat split; vm_compute; reflexivity. Qed.

(** *** Round trip *)

Lemma hexDigit_byte d : d < 16 -> hexDigit d <= 255.
Proof. intros Hd. unfold hexDigit. destruct (d <? 10); lia. Qed.

Lemma unicodeEscape_latin1 c : c <= 255 -> latin1 (unicodeEscape c).
Proof.
  intros Hc. unfold unicodeEscape, latin1.
  repeat (apply Forall_cons; split); try exact (List.Forall_nil _); try lia;
    apply hexDigit_byte; divmod.
Qed.

Lemma quoteChars_latin1 s : latin1 s -> latin1 (quoteChars s).
Proof.
  unfold latin1.
  induction s as [|c r IH]; intros Hs; [constructor|].
  apply Forall_cons in Hs as [Hc Hr]. specialize (IH Hr).
  cbn [quoteChars].
  repeat match goal with
    | |- context [if ?k =? ?v then _ else _] =>
        destruct (N.eqb_spec k v) as [->|?];
        [ repeat (apply Forall_cons; split); (lia || assumption) | ]
    end.
  destruct (c <? 32).
  { apply Forall_app. split; [|assumption]. now apply unicodeEscape_latin1. }
  assert (Hh : isHighSurrogate c = false).
  { unfold isHighSurrogate. apply andb_false_iff. left. apply N.leb_gt. lia. }
  assert (Hl : isLowSurrogate c = false).
  { unfold isLowSurrogate. apply andb_false_iff. left. apply N.leb_gt. lia. }
  rewrite Hh, Hl. apply Forall_cons. split; assumption.
Qed.

Lemma quote_latin1 s : latin1 s -> latin1 (quote s).
Proof.
  intros Hs. unfold quote, latin1.
  apply Forall_cons. split; [lia|]. apply Forall_app. split.
  - now apply quoteChars_latin1.
  - apply Forall_cons. split; [lia|constructor].
Qed.

Lemma stringify_latin1 props :
  Forall (fun kv => latin1 (fst kv) /\ latin1 (snd kv)) props ->
  latin1 (stringify props).
Proof.
  intros Hp. unfold stringify, latin1.
  apply Forall_cons. split; [lia|]. apply Forall_app. split.
  - induction props as [|[k v] r IH]; [constructor|].
    apply Forall_cons in Hp as [[Hk Hv] Hr]. specialize (IH Hr).
    cbn [fst snd] in *.
    assert (Hkv : Forall (fun c => c <= 255) (quote k ++ 58 :: quote v)).
    { apply Forall_app. split; [now apply quote_latin1|].
      apply Forall_cons. split; [lia|now apply quote_latin1]. }
    destruct r as [|p r]; [exact Hkv|].
    change (stringifyMembers ((k, v) :: p :: r))
      with (quote k ++ 58 :: quote v ++ 44 :: stringifyMembers (p :: r)).
    apply Forall_app. split; [now apply quote_latin1|].
    apply Forall_cons. split; [lia|].
    apply Forall_app. split; [now apply quote_latin1|].
    apply Forall_cons. split; [lia|assumption].
  - apply Forall_cons. split; [lia|constructor].
Qed.

Lemma latin1_forallb s : forallb (fun c => c <=? 255) s = true -> latin1 s.
Proof.
  intros Hs. apply List.Forall_forall. intros c Hc.
  rewrite forallb_forall in Hs. apply N.leb_le, Hs, Hc.
Qed.

(** C8, as stated, fails: for a record whose id holds a code unit above
    U+00FF, [btoa] throws and there is no token to decode. *)
Lemma encode_fails_outside_latin1 :
  encodeToken devanagariRow = None
  /\ (encodeToken devanagariRow ≫= decodeToken) = None.
Proof. split; vm_compute; reflexivity. Qed.

(** C8, amended. For every record whose id, batch and checksum consist of
    code units up to U+00FF, encoding succeeds and decoding the token
    yields the claim with the marker as tag and the record's id, batch and
    checksum as its fields. *)
Theorem roundtrip_latin1 (r : BatchRecord) :
  latin1 (id r) -> latin1 (batch r) -> latin1 (checksum r) ->
  exists token,
    encodeToken r = Some token
    /\ decodeToken token = Some (claimOf (id r) (batch r) (checksum r)).
Proof.
  intros Hi Hb Hc.
  set (payload := [(js "t", marker); (js "id", id r); (js "b", batch r);
                   (js "c", checksum r)]).
  assert (Ht : latin1 (stringify payload)).
  { apply stringify_latin1. subst payload.
    repeat (apply Forall_cons; split; [split|]);
      try exact (List.Forall_nil _);
      cbn [fst snd]; try assumption; apply latin1_forallb; reflexivity. }
  exists (Base64.encode (stringify payload)). split.
  - unfold encodeToken. fold payload.
    apply Base64Facts.btoa_Some. split; [exact Ht|reflexivity].
  - unfold decodeToken.
    rewrite (Base64Facts.atob_encode _ Ht), parse_stringify.
    reflexivity.
Qed.

Lemma roundtrip_latin1_witness :
  latin1 (id paracetamol) /\ latin1 (batch paracetamol)
  /\ latin1 (checksum paracetamol)
  /\ exists token,
      encodeToken paracetamol = Some token
      /\ decodeToken token
         = Some (claimOf (id paracetamol) (batch paracetamol)
                   (checksum paracetamol)).
Proof.
  assert (H1 : latin1 (id paracetamol))
    by (apply latin1_forallb; reflexivity).
  assert (H2 : latin1 (batch paracetamol))
    by (apply latin1_forallb; reflexivity).
  assert (H3 : latin1 (checksum paracetamol))
    by (apply latin1_forallb; reflexivity).
  split; [exact H1|]. split; [exact H2|]. split; [exact H3|].
  exact (roundtrip_latin1 paracetamol H1 H2 H3).
Defined.

(** The fields of a decoded payload. *)
Lemma claimOf_fields i b c :
  getProp (claimOf i b c) (js "t") = Some (JString marker)
  /\ sameTriple (claimOf i b c)
       {| id := i; name := []; batch := b; mfg := []; exp := [];
          manufacturer := []; supplier := []; shop := []; checksum := c;
          status := [] |}.
Proof. repeat split. Qed.

(** *** The identity key *)

(** C9, as stated, fails: the ids of the ledger contain the delimiter, and
    two different triples can be joined into one key. *)
Lemma joinKey_collision :
  let d1 := claimOf (js "MED-001") (js "B1") (js "aa") in
  let d2 := claimOf (js "MED") (js "001-B1") (js "aa") in
  triple d1 <> triple d2 /\ templateKey d1 = templateKey d2.
Proof. split; [discriminate|reflexivity]. Qed.

Lemma matched_triple d m :
  matches d m = true ->
  triple d = (Some (JString (id m)), Some (JString (batch m)),
              Some (JString (checksum m))).
Proof.
  intros (Hi & Hb & Hc)%matches_spec. unfold triple.
  now rewrite Hi, Hb, Hc.
Qed.

(** C9, amended. A key is only computed for a claim that matches a ledger
    record, and any two such claims whose triples differ have different
    keys: the four records of the ledger are joined into four different
    keys. *)
Theorem ledger_keys_distinct d1 d2 m1 m2 :
  List.find (matches d1) mockLedger = Some m1 ->
  List.find (matches d2) mockLedger = Some m2 ->
  triple d1 <> triple d2 ->
  templateKey d1 <> templateKey d2.
Proof.
  intros [Hin1 Hm1]%find_some [Hin2 Hm2]%find_some Hne.
  rewrite (templateKey_matched d1 m1 Hm1), (templateKey_matched d2 m2 Hm2).
  rewrite (matched_triple d1 m1 Hm1), (matched_triple d2 m2 Hm2) in Hne.
  clear Hm1 Hm2.
  unfold mockLedger in Hin1, Hin2. cbn [In] in Hin1, Hin2.
  destruct Hin1 as [<-|[<-|[<-|[<-|[]]]]];
    destruct Hin2 as [<-|[<-|[<-|[<-|[]]]]];
    first [ congruence | intros E; vm_compute in E; discriminate ].
Qed.

Lemma ledger_keys_distinct_witness :
  let d1 := claimOf (js "MED-001") (js "B456789") (js "f9a2") in
  let d2 := claimOf (js "MED-004") (js "I220015") (js "c0de") in
  List.find (matches d1) mockLedger = Some paracetamol
  /\ List.find (matches d2) mockLedger = Some ibuprofen
  /\ triple d1 <> triple d2
  /\ templateKey d1 <> templateKey d2.
Proof.
  intros d1 d2.
  assert (H1 : List.find (matches d1) mockLedger = Some paracetamol)
    by (vm_compute; reflexivity).
  assert (H2 : List.find (matches d2) mockLedger = Some ibuprofen)
    by (vm_compute; reflexivity).
  assert (H3 : triple d1 <> triple d2) by discriminate.
  split; [exact H1|]. split; [exact H2|]. split; [exact H3|].
  exact (ledger_keys_distinct d1 d2 paracetamol ibuprofen H1 H2 H3).
Defined.

Lemma split_at_delimiter (x : N) a1 a2 r1 r2 :
  ~ In x a1 -> ~ In x a2 ->
  a1 ++ x :: r1 = a2 ++ x :: r2 -> a1 = a2 /\ r1 = r2.
Proof.
  revert a2. induction a1 as [|c a1 IH]; intros [|c2 a2] H1 H2 E;
    cbn [app In] in *.
  - injection E as <-. auto.
  - injection E as <- _. tauto.
  - injection E as -> _. tauto.
  - injection E as <- E. destruct (IH a2) as [<- <-]; auto.
Qed.

(** Without the delimiter inside [id] and [batch] the key is unambiguous. *)
Lemma joinKey_inj i1 b1 c1 i2 b2 c2 :
  ~ In 45 i1 -> ~ In 45 i2 -> ~ In 45 b1 -> ~ In 45 b2 ->
  joinKey i1 b1 c1 = joinKey i2 b2 c2 -> i1 = i2 /\ b1 = b2 /\ c1 = c2.
Proof.
  intros Hi1 Hi2 Hb1 Hb2 E. unfold joinKey in E.
  change (js "-" ++ ?x) with (45 :: x) in E.
  apply split_at_delimiter in E as [<- E]; [|assumption..].
  apply split_at_delimiter in E as [<- <-]; auto.
Qed.

(** *** The duplicate flag *)

(** C10. The handler starts by switching the duplicate flag off, so its
    run does not depend on the flag it finds; and after a call whose token
    does not decode or does not match the ledger the flag is off, whatever
    it was before. *)
Theorem duplicate_flag_reset ledger env token st :
  verifyOn ledger env token st
  = verifyOn ledger env token (setDuplicateFlag false st)
  /\ (decodeToken (trim token) = None
      \/ (exists d, decodeToken (trim token) = Some d
                    /\ List.find (matches d) ledger = None) ->
      exists st',
        verifyOn ledger env token st = Some st'
        /\ duplicateFlag st' = false).
Proof.
  split; [reflexivity|].
  intros [Hd|(d & Hd & Hf)].
  - rewrite (verifyOn_invalid ledger env token st Hd). eauto.
  - rewrite (verifyOn_nomatch ledger env token st d Hd Hf). eauto.
Qed.

Lemma duplicate_flag_reset_witness :
  duplicateFlag rescanned = true
  /\ (exists d, decodeToken (trim wrongChecksumToken) = Some d
                /\ List.find (matches d) mockLedger = None)
  /\ exists st',
      verifyOn mockLedger (utcHost 0) wrongChecksumToken rescanned = Some st'
      /\ duplicateFlag st' = false.
Proof.
  split; [reflexivity|].
  assert (H : exists d, decodeToken (trim wrongChecksumToken) = Some d
                        /\ List.find (matches d) mockLedger = None).
  { exists (claimOf (js "MED-001") (js "B456789") (js "ffff")).
    split; vm_compute; reflexivity. }
  split; [exact H|].
  apply (proj2 (duplicate_flag_reset mockLedger (utcHost 0) wrongChecksumToken
                  rescanned)).
  right. exact H.
Defined.

(** * Further properties *)

(** ** White space around and inside a token *)

Lemma trimStart_app a b :
  trimStart (a ++ b)
  = if forallb isTrimSpace a then trimStart b else trimStart a ++ b.
Proof.
  induction a as [|c a IH]; [reflexivity|].
  cbn [app trimStart forallb]. destruct (isTrimSpace c); [exact IH|reflexivity].
Qed.

Lemma trimStart_blank ws : forallb isTrimSpace ws = true -> trimStart ws = [].
Proof.
  induction ws as [|c ws IH]; [reflexivity|]. cbn [forallb trimStart].
  intros [Hc Hws]%andb_true_iff. rewrite Hc. auto.
Qed.

Lemma forallb_rev {A} (f : A -> bool) l : forallb f (rev l) = forallb f l.
Proof.
  induction l as [|x l IH]; [reflexivity|].
  cbn [rev forallb]. rewrite forallb_app, IH. cbn [forallb].
  rewrite andb_true_r. apply andb_comm.
Qed.

Lemma trimEnd_app_blank s ws :
  forallb isTrimSpace ws = true -> trimEnd (s ++ ws) = trimEnd s.
Proof.
  intros Hws. unfold trimEnd. rewrite rev_app_distr, trimStart_app.
  now rewrite forallb_rev, Hws.
Qed.

Lemma trim_surrounded ws1 s ws2 :
  forallb isTrimSpace ws1 = true -> forallb isTrimSpace ws2 = true ->
  trim (ws1 ++ s ++ ws2) = trim s.
Proof.
  intros H1 H2. unfold trim.
  rewrite trimStart_app, H1, trimStart_app.
  destruct (forallb isTrimSpace s) eqn:Hs.
  - rewrite (trimStart_blank ws2 H2), (trimStart_blank s Hs). reflexivity.
  - now apply trimEnd_app_blank.
Qed.

Lemma trimStart_fixed s :
  forallb (fun c => negb (isTrimSpace c)) s = true -> trimStart s = s.
Proof.
  destruct s as [|c s]; [reflexivity|]. cbn [forallb trimStart].
  intros [Hc _]%andb_true_iff. now destruct (isTrimSpace c).
Qed.

Lemma trim_fixed s :
  forallb (fun c => negb (isTrimSpace c)) s = true -> trim s = s.
Proof.
  intros Hs. unfold trim, trimEnd.
  rewrite (trimStart_fixed s Hs), trimStart_fixed, rev_involutive;
    [reflexivity|].
  now rewrite forallb_rev.
Qed.

(** ** Tokens *)

Import Base64 Base64Facts.

Lemma tokenChar_enc i : i < 64 -> isTokenChar (enc i) = true.
Proof. intros Hi. unfold isTokenChar. now rewrite (dec_enc i Hi). Qed.

Lemma trimSpace_range c : isTrimSpace c = true -> c <= 32 \/ 160 <= c.
Proof.
  unfold isTrimSpace. intros H.
  repeat rewrite ?orb_true_iff, ?andb_true_iff, ?N.eqb_eq, ?N.leb_le in H.
  lia.
Qed.

Lemma tokenChar_range c : isTokenChar c = true -> 43 <= c <= 122.
Proof.
  unfold isTokenChar, dec, pad.
  destruct ((65 <=? c) && (c <=? 90)) eqn:E1;
    [apply andb_true_iff in E1 as [?%N.leb_le ?%N.leb_le]; lia|].
  destruct ((97 <=? c) && (c <=? 122)) eqn:E2;
    [apply andb_true_iff in E2 as [?%N.leb_le ?%N.leb_le]; lia|].
  destruct ((48 <=? c) && (c <=? 57)) eqn:E3;
    [apply andb_true_iff in E3 as [?%N.leb_le ?%N.leb_le]; lia|].
  destruct (N.eqb_spec c 43); [lia|].
  destruct (N.eqb_spec c 47); [lia|].
  intros ?%N.eqb_eq. lia.
Qed.

Lemma tokenChar_not_space c : isTokenChar c = true -> isTrimSpace c = false.
Proof.
  intros H%tokenChar_range. destruct (isTrimSpace c) eqn:E; [|reflexivity].
  apply trimSpace_range in E. lia.
Qed.

Lemma encode_tokenChars s :
  latin1 s -> forallb isTokenChar (encode s) = true.
Proof.
  unfold latin1.
  induction s as [|a|a b|a b c r IH] using list_ind3; intros Hs.
  - reflexivity.
  - apply Forall_cons in Hs as [Ha _].
    destruct (sextet_bounds a a a Ha Ha Ha) as (H1 & _ & _ & _ & H2 & _).
    cbn [encode forallb]. now rewrite !tokenChar_enc.
  - apply Forall_cons in Hs as [Ha Hs]. apply Forall_cons in Hs as [Hb _].
    destruct (sextet_bounds a b b Ha Hb Hb) as (H1 & H2 & _ & _ & _ & H3).
    cbn [encode forallb]. now rewrite !tokenChar_enc.
  - apply Forall_cons in Hs as [Ha Hs]. apply Forall_cons in Hs as [Hb Hs].
    apply Forall_cons in Hs as [Hc Hs].
    destruct (sextet_bounds a b c Ha Hb Hc) as (H1 & H2 & H3 & H4 & _ & _).
    cbn [encode forallb]. rewrite !tokenChar_enc by assumption.
    now rewrite IH.
Qed.

Lemma encode_trim s : latin1 s -> trim (encode s) = encode s.
Proof.
  intros Hs. apply trim_fixed. apply forallb_forall. intros c Hc.
  pose proof (encode_tokenChars s Hs) as Ht.
  rewrite forallb_forall in Ht. now rewrite (tokenChar_not_space c (Ht c Hc)).
Qed.

(** What [encodeToken] returns, when it returns. *)
Lemma encodeToken_Some r token :
  encodeToken r = Some token ->
  let text := stringify [(js "t", marker); (js "id", id r);
                         (js "b", batch r); (js "c", checksum r)] in
  latin1 text /\ token = encode text.
Proof. intros H. now apply btoa_Some in H. Qed.

(** Decoding the base64 of a stringified object of strings. *)
Lemma decode_stringified props :
  latin1 (stringify props) ->
  decodeToken (encode (stringify props))
  = if strictEq marker (objGet (js "t") (fromStrings props []))
    then Some (JObject (fromStrings props [])) else None.
Proof.
  intros Hl. unfold decodeToken.
  rewrite (atob_encode _ Hl), parse_stringify. cbn [truthy negb orb getProp].
  now destruct (strictEq _ _).
Qed.

Lemma decode_encoded r token :
  encodeToken r = Some token ->
  decodeToken token = Some (claimOf (id r) (batch r) (checksum r)).
Proof.
  intros [Hl ->]%encodeToken_Some. rewrite (decode_stringified _ Hl).
  reflexivity.
Qed.

(** X1. Whenever [encodeToken] returns a token, [decodeToken] turns it back
    into the claim of the record, also for strings outside Latin-1 that
    JSON.stringify escapes (lone surrogates). *)
Theorem decode_inverts_encode r token :
  encodeToken r = Some token ->
  decodeToken token = Some (claimOf (id r) (batch r) (checksum r)).
Proof. apply decode_encoded. Qed.

Lemma decode_inverts_encode_witness :
  let r := {| id := [55357]; name := []; batch := js "B1"; mfg := [];
              exp := []; manufacturer := []; supplier := []; shop := [];
              checksum := js "aa"; status := js "active" |} in
  let token := js "eyJ0IjoiUkVEU1RFRVAtREVNTyIsImlkIjoiXHVkODNkIiwiYiI6IkIxIiwiYyI6ImFhIn0=" in
  encodeToken r = Some token
  /\ decodeToken token = Some (claimOf [55357] (js "B1") (js "aa")).
Proof.
  intros r token.
  assert (H : encodeToken r = Some token) by (vm_compute; reflexivity).
  split; [exact H|]. exact (decode_inverts_encode r token H).
Defined.

(** X2. A token consists of base64 letters, digits, [+], [/] and [=], its
    length is a multiple of four, and trimming leaves it as it is. *)
Theorem token_shape r token :
  encodeToken r = Some token ->
  forallb isTokenChar token = true
  /\ (N.of_nat (length token) mod 4 = 0)
  /\ trim token = token.
Proof.
  intros [Hl ->]%encodeToken_Some. split; [|split].
  - now apply encode_tokenChars.
  - apply encode_length.
  - now apply encode_trim.
Qed.

Lemma token_shape_witness :
  encodeToken paracetamol = Some demoToken
  /\ forallb isTokenChar demoToken = true
  /\ (N.of_nat (length demoToken) mod 4 = 0)
  /\ trim demoToken = demoToken.
Proof.
  assert (H : encodeToken paracetamol = Some demoToken)
    by (vm_compute; reflexivity).
  split; [exact H|]. exact (token_shape paracetamol demoToken H).
Defined.

(** X3. Two records have the same token exactly when they agree on id,
    batch and checksum. *)
Theorem token_identifies_triple r1 r2 token :
  encodeToken r1 = Some token ->
  (encodeToken r2 = Some token
   <-> id r1 = id r2 /\ batch r1 = batch r2 /\ checksum r1 = checksum r2).
Proof.
  intros H1. split.
  - intros H2. apply decode_encoded in H1, H2.
    rewrite H1 in H2. injection H2 as -> -> ->. auto.
  - intros (Hi & Hb & Hc). unfold encodeToken in *.
    now rewrite <- Hi, <- Hb, <- Hc.
Qed.

Lemma token_identifies_triple_witness :
  let relabelled :=
    {| id := id paracetamol; name := js "Other name";
       batch := batch paracetamol; mfg := []; exp := js "2030-01-01";
       manufacturer := []; supplier := []; shop := [];
       checksum := checksum paracetamol; status := js "recalled" |} in
  encodeToken paracetamol = Some demoToken
  /\ (encodeToken relabelled = Some demoToken
      <-> id paracetamol = id relabelled
          /\ batch paracetamol = batch relabelled
          /\ checksum paracetamol = checksum relabelled).
Proof.
  intros relabelled.
  assert (H : encodeToken paracetamol = Some demoToken)
    by (vm_compute; reflexivity).
  split; [exact H|].
  exact (token_identifies_triple paracetamol relabelled demoToken H).
Defined.

(** ** When encoding throws *)

Lemma quoteChars_keeps c s :
  In c s -> 255 < c -> isHighSurrogate c = false -> isLowSurrogate c = false ->
  In c (quoteChars s).
Proof.
  intros Hin Hc Hh Hl.
  enough (H : forall n s, (length s <= n)%nat -> In c s -> In c (quoteChars s))
    by eauto.
  clear s Hin.
  induction n as [|n IH]; intros [|x r] Hle Hin; cbn [length] in Hle;
    try lia; try contradiction.
  assert (IHr : In c r -> In c (quoteChars r)) by (apply IH; lia).
  assert (Hraw : In c (x :: r) -> In c (x :: quoteChars r))
    by (cbn [In]; tauto).
  assert (Hesc : forall e, x <> c -> In c (x :: r) -> In c (e ++ quoteChars r)).
  { intros e Hx [?|?]; [contradiction|]. apply in_or_app. auto. }
  cbn [quoteChars].
  repeat match goal with
    | |- context [if ?k =? ?v then _ else _] =>
        destruct (N.eqb_spec k v) as [->|?];
        [ apply (Hesc [_; _]); [lia|assumption] | ]
    end.
  destruct (N.ltb_spec x 32); [apply Hesc; [lia|assumption]|].
  destruct (isHighSurrogate x) eqn:Hxh.
  { assert (x <> c) by congruence.
    destruct r as [|d r']; [destruct Hin as [?|[]]; contradiction|].
    destruct (isLowSurrogate d) eqn:Hdl; [|now apply Hesc].
    assert (d <> c) by congruence.
    destruct Hin as [?|[?|Hin]]; try contradiction.
    cbn [In]. right. right. apply IH; [cbn [length] in Hle; lia|assumption]. }
  destruct (isLowSurrogate x) eqn:Hxl.
  { apply Hesc; [congruence|assumption]. }
  now apply Hraw.
Qed.

Lemma btoa_None s c : In c s -> 255 < c -> btoa s = None.
Proof.
  intros Hin Hc. unfold btoa.
  destruct (forallb _ s) eqn:E; [|reflexivity].
  rewrite forallb_forall in E. apply E, N.leb_le in Hin. lia.
Qed.

(** X4. [encodeToken] throws as soon as id, batch or checksum holds a code
    unit above U+00FF that is not a surrogate. *)
Theorem encode_throws_above_latin1 r c :
  In c (id r) \/ In c (batch r) \/ In c (checksum r) ->
  255 < c -> isHighSurrogate c = false -> isLowSurrogate c = false ->
  encodeToken r = None.
Proof.
  intros Hin Hc Hh Hl. unfold encodeToken.
  apply (btoa_None _ c); [|exact Hc].
  assert (Hq : forall s x, In c s -> In c (quote s ++ x)).
  { intros s x Hs. apply in_or_app. left. unfold quote. right.
    apply in_or_app. left. now apply quoteChars_keeps. }
  unfold stringify. right. apply in_or_app. left.
  cbn [stringifyMembers].
  apply in_or_app. right. right.    (* past the tag key and the colon *)
  apply in_or_app. right. right.    (* past the tag and the comma *)
  apply in_or_app. right. right.    (* past the key id *)
  destruct Hin as [Hi|Hin]; [now apply Hq|].
  apply in_or_app. right. right.
  apply in_or_app. right. right.
  destruct Hin as [Hb|Hc']; [now apply Hq|].
  apply in_or_app. right. right.
  apply in_or_app. right. right.
  rewrite <- (app_nil_r (quote _)). now apply Hq.
Qed.

Lemma encode_throws_above_latin1_witness :
  (In 2407 (id devanagariRow) \/ In 2407 (batch devanagariRow)
   \/ In 2407 (checksum devanagariRow))
  /\ 255 < 2407
  /\ isHighSurrogate 2407 = false
  /\ isLowSurrogate 2407 = false
  /\ encodeToken devanagariRow = None.
Proof.
  assert (H : In 2407 (id devanagariRow) \/ In 2407 (batch devanagariRow)
              \/ In 2407 (checksum devanagariRow))
    by (left; cbn; tauto).
  split; [exact H|]. split; [reflexivity|]. split; [reflexivity|].
  split; [reflexivity|].
  apply (encode_throws_above_latin1 devanagariRow 2407 H); reflexivity.
Defined.

(** ** What decoding rejects *)

(** X5. A payload whose tag is not the marker is not a claim, whatever id,
    batch and checksum it carries. *)
Theorem wrong_marker_rejected tag i b c :
  tag <> marker ->
  latin1 tag -> latin1 i -> latin1 b -> latin1 c ->
  decodeToken
    (encode (stringify [(js "t", tag); (js "id", i); (js "b", b);
                        (js "c", c)]))
  = None.
Proof.
  intros Hne Ht Hi Hb Hc.
  rewrite decode_stringified.
  - change (objGet (js "t") (fromStrings _ [])) with (Some (JString tag)).
    cbn [strictEq]. destruct (str_eqb marker tag) eqn:E; [|reflexivity].
    apply str_eqb_eq in E. congruence.
  - apply stringify_latin1.
    repeat (apply Forall_cons; split; [split|]);
      try exact (List.Forall_nil _);
      cbn [fst snd]; try assumption; apply latin1_forallb; reflexivity.
Qed.

Lemma wrong_marker_rejected_witness :
  js "REDSTEEP-PROD" <> marker
  /\ latin1 (js "REDSTEEP-PROD") /\ latin1 (js "MED-001")
  /\ latin1 (js "B456789") /\ latin1 (js "f9a2")
  /\ decodeToken
       (encode (stringify [(js "t", js "REDSTEEP-PROD");
                           (js "id", js "MED-001"); (js "b", js "B456789");
                           (js "c", js "f9a2")]))
     = None.
Proof.
  assert (H0 : js "REDSTEEP-PROD" <> marker) by discriminate.
  assert (H1 : latin1 (js "REDSTEEP-PROD")) by (apply latin1_forallb; reflexivity).
  assert (H2 : latin1 (js "MED-001")) by (apply latin1_forallb; reflexivity).
  assert (H3 : latin1 (js "B456789")) by (apply latin1_forallb; reflexivity).
  assert (H4 : latin1 (js "f9a2")) by (apply latin1_forallb; reflexivity).
  repeat (split; [assumption|]).
  exact (wrong_marker_rejected _ _ _ _ H0 H1 H2 H3 H4).
Defined.

Lemma stripPadding_keeps c s :
  In c s -> c <> pad -> In c (stripPadding s).
Proof.
  intros Hin Hc. induction s as [|x s IH]; [contradiction|].
  rewrite stripPadding_cons.
  destruct (isPadTail (x :: s)) eqn:E.
  - exfalso. destruct s as [|y [|z s]]; cbn [isPadTail] in E.
    + apply N.eqb_eq in E. destruct Hin as [E1|[]]. congruence.
    + apply andb_true_iff in E as [Ex%N.eqb_eq Ey%N.eqb_eq].
      destruct Hin as [E1|[E1|[]]]; congruence.
    + discriminate.
  - destruct Hin as [->|Hin]; [now left|]. right. auto.
Qed.

Lemma sextets_None c s : In c s -> dec c = None -> sextets s = None.
Proof.
  intros Hin Hc. induction s as [|x s IH]; [contradiction|].
  cbn [sextets]. destruct Hin as [->|Hin].
  - now rewrite Hc.
  - rewrite (IH Hin). now destruct (dec x).
Qed.

Lemma atob_garbage c s :
  In c s -> isTokenChar c = false -> isAsciiWhitespace c = false ->
  atob s = None.
Proof.
  intros Hin Ht Hw. unfold isTokenChar in Ht.
  destruct (dec c) eqn:Hd; [discriminate|]. apply N.eqb_neq in Ht.
  unfold atob.
  set (data := List.filter _ s).
  assert (Hdata : In c data)
    by (apply filter_In; split; [assumption|now rewrite Hw]).
  set (data' := if _ =? 0 then stripPadding data else data).
  assert (Hdata' : In c data').
  { subst data'. destruct (_ =? 0); [now apply stripPadding_keeps|assumption]. }
  destruct (_ =? 1); [reflexivity|].
  now rewrite (sextets_None c data' Hdata' Hd).
Qed.

Lemma decodeToken_empty : decodeToken [] = None.
Proof. reflexivity. Qed.

(** X6. An empty or blank input, and any input that holds a character which
    is neither white space nor a base64 character, ends in the
    invalid-token failure: no record, seen-set untouched, flag off. *)
Theorem garbage_is_invalid_token ledger env token st :
  trim token = []
  \/ (exists c, In c (trim token) /\ isTokenChar c = false
                /\ isAsciiWhitespace c = false) ->
  verifyOn ledger env token st
  = Some {| scanned := scanned st;
            verifyResult := Some (failure reasonInvalidToken None);
            duplicateFlag := false |}.
Proof.
  intros H. apply verifyOn_invalid.
  destruct H as [->|(c & Hin & Ht & Hw)]; [reflexivity|].
  unfold decodeToken. now rewrite (atob_garbage c _ Hin Ht Hw).
Qed.

Lemma garbage_is_invalid_token_witness :
  (trim (js "MED-001 B456789") = []
   \/ (exists c, In c (trim (js "MED-001 B456789")) /\ isTokenChar c = false
                 /\ isAsciiWhitespace c = false))
  /\ verifyOn mockLedger (utcHost 0) (js "MED-001 B456789") rescanned
     = Some {| scanned := scanned rescanned;
               verifyResult := Some (failure reasonInvalidToken None);
               duplicateFlag := false |}.
Proof.
  assert (H : trim (js "MED-001 B456789") = []
              \/ (exists c, In c (trim (js "MED-001 B456789"))
                            /\ isTokenChar c = false
                            /\ isAsciiWhitespace c = false)).
  { right. exists 45. split; [|split; reflexivity].
    vm_compute. tauto. }
  split; [exact H|].
  exact (garbage_is_invalid_token mockLedger (utcHost 0) _ rescanned H).
Defined.

(** ** White space *)

(** X7. White space around the pasted token does not change the outcome. *)
Theorem surrounding_space_ignored ledger env ws1 token ws2 st :
  forallb isTrimSpace ws1 = true -> forallb isTrimSpace ws2 = true ->
  verifyOn ledger env (ws1 ++ token ++ ws2) st = verifyOn ledger env token st.
Proof.
  intros H1 H2. unfold verifyOn. now rewrite (trim_surrounded ws1 token ws2).
Qed.

Lemma surrounding_space_ignored_witness :
  forallb isTrimSpace [32; 160; 9] = true
  /\ forallb isTrimSpace [13; 10; 8232] = true
  /\ verifyOn mockLedger (utcHost 0) ([32; 160; 9] ++ demoToken ++ [13; 10; 8232])
       initialState
     = verifyOn mockLedger (utcHost 0) demoToken initialState.
Proof.
  split; [reflexivity|]. split; [reflexivity|].
  apply (surrounding_space_ignored mockLedger (utcHost 0)); reflexivity.
Defined.

(** X8. ASCII white space inside a token, such as a line break, is skipped
    by the decoder. *)
Theorem inner_space_skipped a ws b :
  forallb isAsciiWhitespace ws = true ->
  decodeToken (a ++ ws ++ b) = decodeToken (a ++ b).
Proof.
  intros Hws. unfold decodeToken, atob.
  assert (E : List.filter (fun c => negb (isAsciiWhitespace c)) ws = []).
  { induction ws as [|c ws IH]; [reflexivity|]. cbn [forallb] in Hws.
    apply andb_true_iff in Hws as [Hc Hws]. cbn [List.filter].
    rewrite Hc. cbn [negb]. auto. }
  rewrite !List.filter_app, E. reflexivity.
Qed.

Lemma inner_space_skipped_witness :
  forallb isAsciiWhitespace [13; 10] = true
  /\ decodeToken (firstn 40 demoToken ++ [13; 10] ++ skipn 40 demoToken)
     = decodeToken (firstn 40 demoToken ++ skipn 40 demoToken).
Proof.
  split; [reflexivity|].
  apply (inner_space_skipped (firstn 40 demoToken) [13; 10]
           (skipn 40 demoToken)).
  reflexivity.
Defined.

(** ** Tokens without padding *)

Lemma sextets_chars s v :
  sextets s = Some v -> forall c, In c s -> dec c <> None.
Proof.
  revert v. induction s as [|x s IH]; intros v H c Hin; [contradiction|].
  cbn [sextets] in H.
  destruct (dec x) eqn:Hx; [|discriminate].
  destruct (sextets s) eqn:Hs; [|discriminate].
  destruct Hin as [<-|Hin]; [congruence|]. eapply IH; eauto.
Qed.

Lemma filter_all {A} (f : A -> bool) l :
  (forall x, In x l -> f x = true) -> List.filter f l = l.
Proof.
  induction l as [|x l IH]; intros H; [reflexivity|]. cbn [List.filter].
  rewrite (H x (or_introl eq_refl)). f_equal. apply IH. intros y Hy.
  apply H. now right.
Qed.

Lemma last_In {A} (l : list A) x : last l = Some x -> In x l.
Proof.
  induction l as [|y [|z l] IH]; cbn [last]; [discriminate|..].
  - intros [= ->]. now left.
  - intros H. right. now apply IH.
Qed.

Lemma atob_unpadded s : latin1 s -> atob (stripPadding (encode s)) = Some s.
Proof.
  intros Hs.
  destruct (decode_encode s Hs) as (v & Hv & Hd & Hl).
  pose proof (sextets_chars _ _ Hv) as Hc.
  unfold atob.
  rewrite filter_all.
  2:{ intros c Hin. specialize (Hc c Hin).
      assert (Ht : isTokenChar c = true)
        by (unfold isTokenChar; destruct (dec c); congruence).
      apply tokenChar_range in Ht.
      unfold isAsciiWhitespace.
      repeat match goal with
        | |- context [c =? ?k] => destruct (N.eqb_spec c k); [lia|]
        end. reflexivity. }
  rewrite (stripPadding_no_pad (stripPadding (encode s))).
  2:{ intros Hlast%last_In. now apply Hc in Hlast. }
  destruct (_ =? 0); now rewrite Hl, Hv, Hd.
Qed.

(** X9. The decoder does not need the padding: a token whose trailing [=]
    were lost decodes to the same claim. *)
Theorem unpadded_token_accepted r token :
  encodeToken r = Some token ->
  decodeToken (stripPadding token)
  = Some (claimOf (id r) (batch r) (checksum r)).
Proof.
  intros [Hl ->]%encodeToken_Some. unfold decodeToken.
  rewrite (atob_unpadded _ Hl), parse_stringify. reflexivity.
Qed.

Lemma unpadded_token_accepted_witness :
  encodeToken paracetamol = Some demoToken
  /\ stripPadding demoToken
     = js "eyJ0IjoiUkVEU1RFRVAtREVNTyIsImlkIjoiTUVELTAwMSIsImIiOiJCNDU2Nzg5IiwiYyI6ImY5YTIifQ"
  /\ decodeToken (stripPadding demoToken)
     = Some (claimOf (id paracetamol) (batch paracetamol)
               (checksum paracetamol)).
Proof.
  assert (H : encodeToken paracetamol = Some demoToken)
    by (vm_compute; reflexivity).
  split; [exact H|]. split; [vm_compute; reflexivity|].
  exact (unpadded_token_accepted paracetamol demoToken H).
Defined.

(** ** The handler *)

Lemma matches_triple d1 d2 r : triple d1 = triple d2 -> matches d1 r = matches d2 r.
Proof. unfold triple, matches. now intros [= -> -> ->]. Qed.

Lemma find_matches_triple ledger d1 d2 :
  triple d1 = triple d2 ->
  List.find (matches d1) ledger = List.find (matches d2) ledger.
Proof.
  intros H. induction ledger as [|r l IH]; [reflexivity|].
  cbn [List.find]. now rewrite (matches_triple d1 d2 r H), IH.
Qed.

Lemma verifyOn_encoded ledger env st text d m :
  latin1 text ->
  decodeToken (encode text) = Some d ->
  List.find (matches d) ledger = Some m ->
  verifyOn ledger env (encode text) st
  = Some {| scanned := if bool_decide (keyOf m ∈ scanned st)
                       then scanned st else {[keyOf m]} ∪ scanned st;
            verifyResult := Some (ruleResult env m);
            duplicateFlag := bool_decide (keyOf m ∈ scanned st) |}.
Proof.
  intros Hl Hd Hf. apply (verifyOn_matched ledger env _ st d m); [|exact Hf].
  now rewrite (encode_trim _ Hl).
Qed.

(** X10. A token whose object has further members, members in another
    order or a repeated key (the last one counts) is handled exactly like
    the token [encodeToken] makes for the record it matches. *)
Theorem extra_members_tolerated ledger env st props m token :
  latin1 (stringify props) ->
  getProp (JObject (fromStrings props [])) (js "t") = Some (JString marker) ->
  List.find (matches (JObject (fromStrings props []))) ledger = Some m ->
  encodeToken m = Some token ->
  verifyOn ledger env (encode (stringify props)) st
  = verifyOn ledger env token st.
Proof.
  intros Hl Ht Hf Htok.
  assert (Hd : decodeToken (encode (stringify props))
               = Some (JObject (fromStrings props []))).
  { rewrite (decode_stringified props Hl). apply strictEq_spec in Ht.
    cbn [getProp] in Ht. now rewrite Ht. }
  set (d := JObject (fromStrings props [])) in *.
  rewrite (verifyOn_encoded ledger env st _ d m Hl Hd Hf).
  pose proof (decode_encoded m token Htok) as Hd'.
  apply encodeToken_Some in Htok as [Hl' ->].
  assert (Hf' : List.find (matches (claimOf (id m) (batch m) (checksum m)))
                  ledger = Some m).
  { rewrite <- Hf. apply find_matches_triple.
    apply find_some in Hf as [_ Hm]. now rewrite (matched_triple d m Hm). }
  now rewrite (verifyOn_encoded ledger env st _ _ m Hl' Hd' Hf').
Qed.

Lemma extra_members_tolerated_witness :
  let props := [(js "c", js "f9a2"); (js "id", js "OLD"); (js "note", js "hello");
                (js "t", marker); (js "b", js "B456789");
                (js "id", js "MED-001")] in
  latin1 (stringify props)
  /\ getProp (JObject (fromStrings props [])) (js "t") = Some (JString marker)
  /\ List.find (matches (JObject (fromStrings props []))) mockLedger
     = Some paracetamol
  /\ encodeToken paracetamol = Some demoToken
  /\ verifyOn mockLedger (utcHost 0) (encode (stringify props)) initialState
     = verifyOn mockLedger (utcHost 0) demoToken initialState.
Proof.
  intros props.
  assert (H1 : latin1 (stringify props)) by (apply latin1_forallb; reflexivity).
  assert (H2 : getProp (JObject (fromStrings props [])) (js "t")
               = Some (JString marker)) by (vm_compute; reflexivity).
  assert (H3 : List.find (matches (JObject (fromStrings props []))) mockLedger
               = Some paracetamol) by (vm_compute; reflexivity).
  assert (H4 : encodeToken paracetamol = Some demoToken)
    by (vm_compute; reflexivity).
  repeat (split; [assumption|]).
  exact (extra_members_tolerated mockLedger (utcHost 0) initialState props
           paracetamol demoToken H1 H2 H3 H4).
Defined.

(** X11. The handler reports success only for a claim that decodes, carries
    the exact identity of a record on the ledger, and whose record is
    neither recalled nor past 23:59:59 of its expiry date on the clock. *)
Theorem success_is_sound ledger env token st st' res :
  verifyOn ledger env token st = Some st' ->
  verifyResult st' = Some res ->
  ok res = true ->
  exists d m,
    decodeToken (trim token) = Some d
    /\ In m ledger /\ sameTriple d m
    /\ res = success m
    /\ status m <> js "recalled"
    /\ dateGt (clock env) (newDate env (exp m ++ js "T23:59:59")) = false.
Proof.
  intros Hrun Hres Hok.
  destruct (decodeToken (trim token)) as [d|] eqn:Hd.
  - destruct (List.find (matches d) ledger) as [m|] eqn:Hf.
    + rewrite (verifyOn_matched ledger env token st d m Hd Hf) in Hrun.
      injection Hrun as <-. cbn [verifyResult] in Hres. injection Hres as <-.
      exists d, m. apply find_some in Hf as [Hin Hm].
      apply matches_spec in Hm. unfold ruleResult in *.
      destruct (str_eqb (status m) (js "recalled")) eqn:Hs; [discriminate|].
      destruct (dateGt _ _) eqn:He; [discriminate|].
      repeat split; try assumption; try apply Hm.
      intros E. apply str_eqb_eq in E. congruence.
    + rewrite (verifyOn_nomatch ledger env token st d Hd Hf) in Hrun.
      injection Hrun as <-. injection Hres as <-. discriminate.
  - rewrite (verifyOn_invalid ledger env token st Hd) in Hrun.
    injection Hrun as <-. injection Hres as <-. discriminate.
Qed.

Lemma success_is_sound_witness :
  let env := utcHost (localTime 2026 1 1 0 0 0 0) in
  let st' := {| scanned := {[keyOf paracetamol]};
                verifyResult := Some (success paracetamol);
                duplicateFlag := false |} in
  verifyOn mockLedger env demoToken initialState = Some st'
  /\ verifyResult st' = Some (success paracetamol)
  /\ ok (success paracetamol) = true
  /\ exists d m,
      decodeToken (trim demoToken) = Some d
      /\ In m mockLedger /\ sameTriple d m
      /\ success paracetamol = success m
      /\ status m <> js "recalled"
      /\ dateGt (clock env) (newDate env (exp m ++ js "T23:59:59")) = false.
Proof.
  intros env st'.
  assert (H : verifyOn mockLedger env demoToken initialState = Some st')
    by (vm_compute; reflexivity).
  split; [exact H|]. split; [reflexivity|]. split; [reflexivity|].
  exact (success_is_sound mockLedger env demoToken initialState st'
           (success paracetamol) H eq_refl eq_refl).
Defined.

(** X12. A decoded claim whose id, b or c is missing or is not a string (a
    number, null, an array, ...) is answered with the no-match failure. *)
Theorem ill_typed_claim_is_no_match ledger env token st d :
  decodeToken (trim token) = Some d ->
  (forall s, getProp d (js "id") <> Some (JString s))
  \/ (forall s, getProp d (js "b") <> Some (JString s))
  \/ (forall s, getProp d (js "c") <> Some (JString s)) ->
  verifyOn ledger env token st
  = Some {| scanned := scanned st;
            verifyResult := Some (failure reasonNoMatch None);
            duplicateFlag := false |}.
Proof.
  intros Hd Hbad. apply (verifyOn_nomatch ledger env token st d Hd).
  destruct (List.find (matches d) ledger) as [m|] eqn:Hf; [|reflexivity].
  apply find_some in Hf as [_ (Hi & Hb & Hc)%matches_spec].
  destruct Hbad as [H|[H|H]]; exfalso; eapply H; eassumption.
Qed.

Lemma ill_typed_claim_is_no_match_witness :
  let token := js "eyJ0IjoiUkVEU1RFRVAtREVNTyIsImlkIjoxLCJiIjoiQjQ1Njc4OSIsImMiOiJmOWEyIn0=" in
  let d := JObject [(js "t", JString marker); (js "id", JNumber false 1 0);
                    (js "b", JString (js "B456789"));
                    (js "c", JString (js "f9a2"))] in
  decodeToken (trim token) = Some d
  /\ ((forall s, getProp d (js "id") <> Some (JString s))
      \/ (forall s, getProp d (js "b") <> Some (JString s))
      \/ (forall s, getProp d (js "c") <> Some (JString s)))
  /\ verifyOn mockLedger (utcHost 0) token rescanned
     = Some {| scanned := scanned rescanned;
               verifyResult := Some (failure reasonNoMatch None);
               duplicateFlag := false |}.
Proof.
  intros token d.
  assert (H1 : decodeToken (trim token) = Some d) by (vm_compute; reflexivity).
  assert (H2 : (forall s, getProp d (js "id") <> Some (JString s))
               \/ (forall s, getProp d (js "b") <> Some (JString s))
               \/ (forall s, getProp d (js "c") <> Some (JString s)))
    by (left; intros s; discriminate).
  split; [exact H1|]. split; [exact H2|].
  exact (ill_typed_claim_is_no_match mockLedger (utcHost 0) token rescanned
           d H1 H2).
Defined.

(** X13. When several records of the ledger carry the identity of the claim,
    the first of them in ledger order is the one the handler reports. *)
Theorem first_match_wins env token st d before m after :
  decodeToken (trim token) = Some d ->
  (forall r, In r before -> ~ sameTriple d r) ->
  sameTriple d m ->
  exists st',
    verifyOn (before ++ m :: after) env token st = Some st'
    /\ (verifyResult st' ≫= data) = Some m.
Proof.
  intros Hd Hbefore Hm.
  assert (Hf : List.find (matches d) (before ++ m :: after) = Some m).
  { induction before as [|r l IH]; cbn [app List.find].
    - apply matches_spec in Hm. now rewrite Hm.
    - destruct (matches d r) eqn:E.
      + apply matches_spec in E. exfalso. apply (Hbefore r); [now left|exact E].
      + apply IH. intros r' Hr'. apply Hbefore. now right. }
  rewrite (verifyOn_matched _ env token st d m Hd Hf).
  eexists. split; [reflexivity|]. cbn [verifyResult mbind option_bind].
  apply ruleResult_data.
Qed.

Lemma first_match_wins_witness :
  let d := claimOf (js "MED-001") (js "B456789") (js "f9a2") in
  let withdrawn :=
    {| id := id paracetamol; name := name paracetamol;
       batch := batch paracetamol; mfg := mfg paracetamol;
       exp := exp paracetamol; manufacturer := manufacturer paracetamol;
       supplier := supplier paracetamol; shop := shop paracetamol;
       checksum := checksum paracetamol; status := js "recalled" |} in
  decodeToken (trim demoToken) = Some d
  /\ (forall r, In r [ibuprofen] -> ~ sameTriple d r)
  /\ sameTriple d paracetamol
  /\ exists st',
      verifyOn ([ibuprofen] ++ paracetamol :: [withdrawn]) (utcHost 0)
        demoToken initialState = Some st'
      /\ (verifyResult st' ≫= data) = Some paracetamol.
Proof.
  intros d withdrawn.
  assert (H1 : decodeToken (trim demoToken) = Some d)
    by (vm_compute; reflexivity).
  assert (H2 : forall r, In r [ibuprofen] -> ~ sameTriple d r).
  { intros r [<-|[]] (Hi & _). vm_compute in Hi. discriminate. }
  assert (H3 : sameTriple d paracetamol) by (repeat split).
  split; [exact H1|]. split; [exact H2|]. split; [exact H3|].
  exact (first_match_wins (utcHost 0) demoToken initialState d [ibuprofen]
           paracetamol [withdrawn] H1 H2 H3).
Defined.

(** ** Sequences of calls *)

Lemma verifyOn_scanned ledger env token st :
  exists st',
    verifyOn ledger env token st = Some st'
    /\ scanned st'
       = match matchedKey ledger token with
         | Some k => {[k]} ∪ scanned st
         | None => scanned st
         end
    /\ duplicateFlag st'
       = match matchedKey ledger token with
         | Some k => bool_decide (k ∈ scanned st)
         | None => false
         end.
Proof.
  unfold matchedKey.
  destruct (decodeToken (trim token)) as [d|] eqn:Hd.
  - destruct (List.find (matches d) ledger) as [m|] eqn:Hf.
    + rewrite (verifyOn_matched ledger env token st d m Hd Hf).
      eexists. split; [reflexivity|]. cbn [scanned duplicateFlag].
      split; [|reflexivity].
      destruct (bool_decide (keyOf m ∈ scanned st)) eqn:E; [|reflexivity].
      apply bool_decide_eq_true in E. symmetry.
      now apply subseteq_union_1_L, singleton_subseteq_l.
    + rewrite (verifyOn_nomatch ledger env token st d Hd Hf). eauto.
  - rewrite (verifyOn_invalid ledger env token st Hd). eauto.
Qed.

Lemma runCalls_scanned ledger calls :
  forall st, exists st',
    runCalls ledger calls st = Some st'
    /\ forall k, k ∈ scanned st'
                 <-> k ∈ scanned st
                     \/ exists env token, In (env, token) calls
                                          /\ matchedKey ledger token = Some k.
Proof.
  induction calls as [|[env token] rest IH]; intros st; cbn [runCalls].
  - exists st. split; [reflexivity|]. intros k. split; [auto|].
    intros [H|(e & t & Hin & _)]; [exact H|destruct Hin].
  - destruct (verifyOn_scanned ledger env token st) as (st1 & H1 & Hs & _).
    rewrite H1. destruct (IH st1) as (st' & H2 & Hk).
    exists st'. split; [exact H2|]. intros k. rewrite Hk, Hs. split.
    + intros [Hin|(e & t & Hin & Hm)].
      * destruct (matchedKey ledger token) as [k0|] eqn:E; [|auto].
        apply elem_of_union in Hin as [->%elem_of_singleton|Hin]; [|auto].
        right. exists env, token. split; [now left|exact E].
      * right. exists e, t. split; [now right|exact Hm].
    + intros [Hin|(e & t & [E|Hin] & Hm)].
      * left. destruct (matchedKey ledger token); [|exact Hin].
        apply elem_of_union. now right.
      * left. injection E as E1 E2. subst e t. rewrite Hm.
        apply elem_of_union. left. now apply elem_of_singleton.
      * right. eauto.
Qed.

(** X14. After any sequence of calls the seen-set holds exactly the keys it
    held before and the keys of the records matched by the tokens of the
    sequence; nothing else is ever recorded. *)
Theorem scanned_after_calls ledger calls st :
  exists st',
    runCalls ledger calls st = Some st'
    /\ forall k, k ∈ scanned st'
                 <-> k ∈ scanned st
                     \/ exists env token, In (env, token) calls
                                          /\ matchedKey ledger token = Some k.
Proof. apply runCalls_scanned. Qed.

(** X15. A scan is flagged as a duplicate exactly when the record its token
    matches has the key of a record matched by an earlier call, or a key
    that was in the seen-set from the start; what lies between the two
    scans, and whether they were successes or recall or expiry failures,
    makes no difference. *)
Theorem duplicate_iff_scanned_before ledger calls env token st k :
  matchedKey ledger token = Some k ->
  exists st' st'',
    runCalls ledger calls st = Some st'
    /\ verifyOn ledger env token st' = Some st''
    /\ (duplicateFlag st'' = true
        <-> k ∈ scanned st
            \/ exists env0 token0, In (env0, token0) calls
                                   /\ matchedKey ledger token0 = Some k).
Proof.
  intros Hk.
  destruct (runCalls_scanned ledger calls st) as (st' & H1 & Hs).
  destruct (verifyOn_scanned ledger env token st') as (st'' & H2 & _ & Hf).
  exists st', st''. split; [exact H1|]. split; [exact H2|].
  rewrite Hf, Hk, bool_decide_eq_true. apply Hs.
Qed.

Lemma duplicate_iff_scanned_before_witness :
  let late := utcHost (localTime 2030 1 1 0 0 0 0) in
  let calls := [(late, recalledToken); (late, wrongChecksumToken);
                (late, js "garbage")] in
  matchedKey mockLedger recalledToken = Some (keyOf ibuprofen)
  /\ exists st' st'',
      runCalls mockLedger calls initialState = Some st'
      /\ verifyOn mockLedger late recalledToken st' = Some st''
      /\ (duplicateFlag st'' = true
          <-> keyOf ibuprofen ∈ scanned initialState
              \/ exists env0 token0,
                  In (env0, token0) calls
                  /\ matchedKey mockLedger token0 = Some (keyOf ibuprofen)).
Proof.
  intros late calls.
  assert (H : matchedKey mockLedger recalledToken = Some (keyOf ibuprofen))
    by (vm_compute; reflexivity).
  split; [exact H|].
  exact (duplicate_iff_scanned_before mockLedger calls late recalledToken
           initialState (keyOf ibuprofen) H).
Defined.

(** ** A label verifies against its own record *)

Lemma mockLedger_distinct : distinctTriples mockLedger.
Proof.
  intros r1 r2 H1 H2. unfold mockLedger in H1, H2. cbn [In] in H1, H2.
  destruct H1 as [<-|[<-|[<-|[<-|[]]]]];
    destruct H2 as [<-|[<-|[<-|[<-|[]]]]];
    first [ reflexivity | intros E; vm_compute in E; discriminate ].
Qed.

Lemma find_own_record ledger r :
  distinctTriples ledger -> In r ledger ->
  List.find (matches (claimOf (id r) (batch r) (checksum r))) ledger = Some r.
Proof.
  intros Hdist Hin.
  assert (Hm : matches (claimOf (id r) (batch r) (checksum r)) r = true)
    by (apply matches_spec; repeat split).
  destruct (List.find _ ledger) as [m|] eqn:Hf.
  - apply find_some in Hf as [Hin' (Hi & Hb & Hc)%matches_spec].
    cbn in Hi, Hb, Hc. injection Hi as Hi. injection Hb as Hb.
    injection Hc as Hc. f_equal. symmetry. now apply Hdist.
  - apply (find_none _ _ Hf) in Hin. congruence.
Qed.

Lemma verifyOn_own_token ledger r token env st :
  distinctTriples ledger -> In r ledger ->
  encodeToken r = Some token ->
  exists st',
    verifyOn ledger env token st = Some st'
    /\ (verifyResult st' ≫= data) = Some r
    /\ keyOf r ∈ scanned st'.
Proof.
  intros Hdist Hin Htok.
  pose proof (decode_encoded r token Htok) as Hd.
  apply encodeToken_Some in Htok as [Hl ->].
  rewrite (verifyOn_encoded ledger env st _ _ r Hl Hd
             (find_own_record ledger r Hdist Hin)).
  eexists. split; [reflexivity|]. cbn [verifyResult scanned mbind option_bind].
  split; [apply ruleResult_data|].
  destruct (bool_decide (keyOf r ∈ scanned st)) eqn:E; [|set_solver].
  now apply bool_decide_eq_true in E.
Qed.

(** X16. On a ledger without two records of the same identity, the token
    printed for a record verifies against that very record: the handler
    attaches it to its result, at any time and in any state, and records
    its key. *)
Theorem label_verifies_own_record ledger r token env st :
  distinctTriples ledger -> In r ledger ->
  encodeToken r = Some token ->
  exists st',
    verifyOn ledger env token st = Some st'
    /\ (verifyResult st' ≫= data) = Some r
    /\ keyOf r ∈ scanned st'.
Proof. apply verifyOn_own_token. Qed.

Lemma label_verifies_own_record_witness :
  distinctTriples mockLedger /\ In ibuprofen mockLedger
  /\ encodeToken ibuprofen = Some recalledToken
  /\ exists st',
      verifyOn mockLedger (utcHost 0) recalledToken initialState = Some st'
      /\ (verifyResult st' ≫= data) = Some ibuprofen
      /\ keyOf ibuprofen ∈ scanned st'.
Proof.
  assert (H1 : In ibuprofen mockLedger) by (vm_compute; tauto).
  assert (H2 : encodeToken ibuprofen = Some recalledToken)
    by (vm_compute; reflexivity).
  split; [exact mockLedger_distinct|]. split; [exact H1|]. split; [exact H2|].
  exact (label_verifies_own_record mockLedger ibuprofen recalledToken
           (utcHost 0) initialState mockLedger_distinct H1 H2).
Defined.

(** ** Time zones *)

(** X17. In a zone at a fixed offset from UTC the verdict follows the local
    wall clock: a matched record that is not recalled is expired exactly
    when the local time is past 23:59:59.000 of its expiry date, so one
    instant can be before the bound on one host and past it on another. *)
Theorem expiry_follows_local_time ledger env token st d m t offset :
  decodeToken (trim token) = Some d ->
  List.find (matches d) ledger = Some m ->
  status m <> js "recalled" ->
  DateModel.parseLocal (exp m ++ js "T23:59:59") = Some t ->
  (forall x, utcOfLocal env x = (x - offset)%Z) ->
  exists st',
    verifyOn ledger env token st = Some st'
    /\ (verifyResult st' = Some (failure reasonExpired (Some m))
        <-> (t < clock env + offset)%Z)
    /\ (verifyResult st' = Some (success m)
        <-> (clock env + offset <= t)%Z).
Proof.
  intros Hd Hf Hs Ht Hz.
  rewrite (verifyOn_matched ledger env token st d m Hd Hf).
  eexists. split; [reflexivity|]. cbn [verifyResult].
  unfold ruleResult, newDate. rewrite Ht, Hz. cbn [dateGt].
  destruct (str_eqb (status m) (js "recalled")) eqn:E;
    [apply str_eqb_eq in E; contradiction|].
  destruct (Z.ltb_spec (t - offset) (clock env)); split; split;
    intros H'; try reflexivity; try lia; try discriminate H'.
Qed.

Lemma expiry_follows_local_time_witness :
  let instant := localTime 2027 8 31 20 0 0 0 in
  let mumbai := {| clock := instant;
                   utcOfLocal := fun x => (x - 19800000)%Z |} in
  let d := claimOf (js "MED-001") (js "B456789") (js "f9a2") in
  let t := localTime 2027 8 31 23 59 59 0 in
  decodeToken (trim demoToken) = Some d
  /\ List.find (matches d) mockLedger = Some paracetamol
  /\ status paracetamol <> js "recalled"
  /\ DateModel.parseLocal (exp paracetamol ++ js "T23:59:59") = Some t
  /\ (forall x, utcOfLocal mumbai x = (x - 19800000)%Z)
  /\ (t < clock mumbai + 19800000)%Z
  /\ exists st',
      verifyOn mockLedger mumbai demoToken initialState = Some st'
      /\ (verifyResult st' = Some (failure reasonExpired (Some paracetamol))
          <-> (t < clock mumbai + 19800000)%Z)
      /\ (verifyResult st' = Some (success paracetamol)
          <-> (clock mumbai + 19800000 <= t)%Z).
Proof.
  intros instant mumbai d t.
  assert (H1 : decodeToken (trim demoToken) = Some d)
    by (vm_compute; reflexivity).
  assert (H2 : List.find (matches d) mockLedger = Some paracetamol)
    by (vm_compute; reflexivity).
  assert (H3 : status paracetamol <> js "recalled") by discriminate.
  assert (H4 : DateModel.parseLocal (exp paracetamol ++ js "T23:59:59")
               = Some t) by (vm_compute; reflexivity).
  assert (H5 : forall x, utcOfLocal mumbai x = (x - 19800000)%Z)
    by reflexivity.
  repeat (split; [assumption|]).
  split; [vm_compute; reflexivity|].
  exact (expiry_follows_local_time mockLedger mumbai demoToken initialState
           d paracetamol t 19800000%Z H1 H2 H3 H4 H5).
Defined.

(** ** The result panel *)

Import View.


(** ** The ledger grid *)

Lemma startsWith_spec s pat :
  startsWith s pat = true <-> exists b, s = pat ++ b.
Proof.
  revert s. induction pat as [|p pat IH]; intros s; cbn [startsWith].
  - split; [intros _; now exists s|reflexivity].
  - destruct s as [|c s].
    + split; [discriminate|]. intros [b [=]].
    + rewrite andb_true_iff, N.eqb_eq, IH. split.
      * intros [-> [b ->]]. now exists b.
      * intros [b [= -> ->]]. split; [reflexivity|now exists b].
Qed.

Lemma includes_spec s pat :
  includes s pat = true <-> exists a b, s = a ++ pat ++ b.
Proof.
  induction s as [|c s IH]; cbn [includes].
  - rewrite orb_false_r, startsWith_spec. split.
    + intros [b ->]. now exists [], b.
    + intros (a & b & E). destruct a as [|x a]; [now exists b|discriminate].
  - rewrite orb_true_iff, startsWith_spec, IH. split.
    + intros [[b ->]|(a & b & ->)]; [now exists [], b|now exists (c :: a), b].
    + intros ([|x a] & b & E); [left; now exists b|].
      injection E as -> ->. right. now exists a, b.
Qed.

Lemma includes_trans s mid pat :
  includes s mid = true -> includes mid pat = true -> includes s pat = true.
Proof.
  rewrite !includes_spec. intros (a & b & ->) (a' & b' & ->).
  exists (a ++ a'), (b' ++ b). now rewrite <- !app_assoc.
Qed.

Lemma withTokens_Some source rows :
  withTokens source = Some rows ->
  List.map record rows = source
  /\ Forall (fun row => encodeToken (record row) = Some (token row)) rows.
Proof.
  revert rows. induction source as [|r l IH]; intros rows; cbn [withTokens].
  - intros [= <-]. split; [reflexivity|constructor].
  - destruct (encodeToken r) as [t|] eqn:Ht; [|discriminate].
    destruct (withTokens l) as [rows'|]; [|discriminate].
    intros [= <-]. destruct (IH rows' eq_refl) as [Hm Hf].
    split; [cbn [List.map record]; now rewrite Hm|].
    apply List.Forall_cons; [exact Ht|exact Hf].
Qed.

Lemma withTokens_None source :
  withTokens source = None <-> exists r, In r source /\ encodeToken r = None.
Proof.
  induction source as [|r l IH]; cbn [withTokens].
  - split; [discriminate|]. intros (r & [] & _).
  - destruct (encodeToken r) as [t|] eqn:Ht.
    + destruct (withTokens l) as [rows|].
      * split; [discriminate|]. intros (r' & [<-|Hin] & E); [congruence|].
        assert (exists r, In r l /\ encodeToken r = None) as H%IH by eauto.
        discriminate.
      * split; [|reflexivity]. intros _.
        destruct (proj1 IH eq_refl) as (r' & Hin & E).
        exists r'. split; [now right|exact E].
    + split; [|reflexivity]. intros _. exists r. split; [now left|exact Ht].
Qed.

Lemma ledgerOn_row toLowerCase source query filter rows row :
  ledgerOn toLowerCase source query filter = Some rows -> In row rows ->
  In (record row) source /\ encodeToken (record row) = Some (token row).
Proof.
  unfold ledgerOn.
  destruct (withTokens source) as [all|] eqn:Hw; [|discriminate].
  intros [= <-] [Hin _]%filter_In.
  apply withTokens_Some in Hw as [Hm Hf]. split.
  - rewrite <- Hm. now apply in_map.
  - rewrite List.Forall_forall in Hf. now apply Hf.
Qed.

Lemma trimStart_nil s : trimStart s = [] -> forallb isTrimSpace s = true.
Proof.
  induction s as [|c s IH]; [reflexivity|]. cbn [trimStart forallb].
  destruct (isTrimSpace c); [exact IH|discriminate].
Qed.

Lemma trim_blank s : trim s = [] <-> forallb isTrimSpace s = true.
Proof.
  split.
  - unfold trim, trimEnd. intros H.
    apply (f_equal (@rev N)) in H. rewrite rev_involutive in H. cbn [rev] in H.
    apply trimStart_nil in H. rewrite forallb_rev in H.
    destruct (trimStart s) as [|c r] eqn:E; [now apply trimStart_nil|].
    exfalso. cbn [forallb] in H. apply andb_true_iff in H as [Hc _].
    clear -E Hc. induction s as [|x s IH]; [discriminate|].
    cbn [trimStart] in E. destruct (isTrimSpace x) eqn:Hx; [auto|].
    injection E as -> _. congruence.
  - intros H. unfold trim. now rewrite (trimStart_blank s H).
Qed.

Lemma trimSpace_asciiLower c : isTrimSpace (asciiLower c) = isTrimSpace c.
Proof.
  unfold asciiLower.
  destruct ((65 <=? c) && (c <=? 90)) eqn:E; [|reflexivity].
  apply andb_true_iff in E as [H1%N.leb_le H2%N.leb_le].
  destruct (isTrimSpace (c + 32)) eqn:E1, (isTrimSpace c) eqn:E2;
    try reflexivity;
    try apply trimSpace_range in E1; try apply trimSpace_range in E2; lia.
Qed.

Lemma blank_lowerAscii q :
  forallb isTrimSpace (lowerAscii q) = forallb isTrimSpace q.
Proof.
  induction q as [|c q IH]; [reflexivity|].
  cbn [lowerAscii List.map forallb]. fold (lowerAscii q).
  now rewrite trimSpace_asciiLower, IH.
Qed.

Lemma blank_test_eq q1 q2 :
  forallb isTrimSpace q1 = forallb isTrimSpace q2 ->
  (length (trim q1) =? 0)%nat = (length (trim q2) =? 0)%nat.
Proof.
  intros H.
  assert (Hb : forall q, (length (trim q) =? 0)%nat = forallb isTrimSpace q).
  { intros q. destruct (forallb isTrimSpace q) eqn:E.
    - apply trim_blank in E. now rewrite E.
    - destruct (trim q) eqn:Et; [|reflexivity].
      apply trim_blank in Et. congruence. }
  now rewrite !Hb.
Qed.

Section Grid.
Variable toLowerCase : jsstring -> jsstring.

(** X19. The grid cannot be built at all, whatever the query and the
    filter, exactly when [encodeToken] throws on some record of the
    source: one record with a character outside Latin-1 takes every row
    down with it, the rows the filter would have hidden included. *)
Theorem grid_fails_iff_some_token_fails source query filter :
  ledgerOn toLowerCase source query filter = None
  <-> exists r, In r source /\ encodeToken r = None.
Proof.
  unfold ledgerOn. rewrite <- withTokens_None.
  destruct (withTokens source); split; congruence.
Qed.

(** X20. The rows shown are records of the source in their order, each with
    the token [encodeToken] makes for it; under a status filter other
    than all only records of that status are shown; and a blank query
    under the filter all shows every record. *)
Theorem grid_rows source query filter rows :
  ledgerOn toLowerCase source query filter = Some rows ->
  sublist (List.map record rows) source
  /\ Forall (fun row => encodeToken (record row) = Some (token row)
                        /\ (filter <> js "all" ->
                            status (record row) = filter)) rows
  /\ (trim query = [] -> filter = js "all" ->
      List.map record rows = source).
Proof.
  unfold ledgerOn.
  destruct (withTokens source) as [all|] eqn:Hw; [|discriminate].
  intros [= <-]. apply withTokens_Some in Hw as [Hm Hf].
  split; [|split].
  - rewrite <- Hm. clear. induction all as [|x l IH]; [constructor|].
    cbn [List.filter List.map]. destruct (_ && _); cbn [List.map].
    + now apply sublist_skip.
    + now apply sublist_cons.
  - apply List.Forall_forall. intros row [Hin Hp]%filter_In.
    rewrite List.Forall_forall in Hf. split; [now apply Hf|].
    intros Hne. apply andb_true_iff in Hp as [_ Hp].
    unfold matchesFilter in Hp.
    destruct (str_eqb filter (js "all")) eqn:E.
    + apply str_eqb_eq in E. contradiction.
    + now apply str_eqb_eq.
  - intros Hq ->. rewrite <- Hm. f_equal. apply filter_all.
    intros row _. unfold matchesText. now rewrite Hq.
Qed.

(** X21. Typing more narrows the grid: when the lower-cased query [short]
    occurs inside the lower-cased query [long], every row shown for
    [long] is also shown for [short], under the same filter. *)
Theorem longer_query_narrows source short long filter rows_long :
  includes (toLowerCase long) (toLowerCase short) = true ->
  trim long <> [] ->
  ledgerOn toLowerCase source long filter = Some rows_long ->
  exists rows_short,
    ledgerOn toLowerCase source short filter = Some rows_short
    /\ forall row, In row rows_long -> In row rows_short.
Proof.
  unfold ledgerOn. intros Hinc Hlong.
  destruct (withTokens source) as [all|]; [|discriminate].
  intros [= <-]. eexists. split; [reflexivity|].
  intros row [Hin Hp]%filter_In. apply filter_In. split; [exact Hin|].
  apply andb_true_iff in Hp as [Ht Hf]. rewrite Hf, andb_true_r.
  unfold matchesText in *.
  destruct (trim long) as [|c l] eqn:E; [contradiction|].
  cbn [length Nat.eqb orb] in Ht.
  repeat rewrite orb_true_iff in Ht. repeat rewrite orb_true_iff.
  destruct Ht as [[Ht|Ht]|Ht];
    eauto using includes_trans.
Qed.

(** X22. Every row of the grid carries a token that verifies against the
    record of that row, on a source without two records of the same
    identity; and once the effect has put the first row's token into the
    empty verification box, pressing Verify reports the first row's
    record.  A box that is not empty is left alone. *)
Theorem shown_tokens_verify source query filter rows env st :
  distinctTriples source ->
  ledgerOn toLowerCase source query filter = Some rows ->
  (forall row, In row rows ->
     exists st',
       verifyOn source env (token row) st = Some st'
       /\ (verifyResult st' ≫= data) = Some (record row))
  /\ (forall first rest, rows = first :: rest ->
       exists st',
         verifyOn source env (autofill rows []) st = Some st'
         /\ (verifyResult st' ≫= data) = Some (record first))
  /\ (forall typed, typed <> [] -> autofill rows typed = typed).
Proof.
  intros Hdist Hrows.
  assert (Hrow : forall row, In row rows ->
            exists st',
              verifyOn source env (token row) st = Some st'
              /\ (verifyResult st' ≫= data) = Some (record row)).
  { intros row Hin.
    destruct (ledgerOn_row _ _ _ _ _ _ Hrows Hin) as [Hsrc Htok].
    destruct (verifyOn_own_token source _ _ env st Hdist Hsrc Htok)
      as (st' & H1 & H2 & _).
    eauto. }
  split; [exact Hrow|]. split.
  - intros first rest ->. cbn [autofill]. apply Hrow. now left.
  - intros typed Hne. unfold autofill. destruct rows; [reflexivity|].
    destruct (str_eqb typed []) eqn:E; [|reflexivity].
    apply str_eqb_eq in E. contradiction.
Qed.

Hypothesis toLowerCase_ascii :
  forall s, isAscii s -> toLowerCase s = lowerAscii s.

(** X23. The search does not tell upper case from lower case: two ASCII
    queries that differ only in the case of their letters show the same
    rows. *)
Theorem search_ignores_case source q1 q2 filter :
  isAscii q1 -> isAscii q2 -> lowerAscii q1 = lowerAscii q2 ->
  ledgerOn toLowerCase source q1 filter
  = ledgerOn toLowerCase source q2 filter.
Proof.
  intros H1 H2 Hq. unfold ledgerOn.
  destruct (withTokens source) as [all|]; [|reflexivity].
  f_equal. apply filter_ext. intros row. f_equal.
  unfold matchesText.
  rewrite (toLowerCase_ascii q1 H1), (toLowerCase_ascii q2 H2), Hq.
  f_equal. f_equal. f_equal.
  apply blank_test_eq.
  now rewrite <- (blank_lowerAscii q1), <- (blank_lowerAscii q2), Hq.
Qed.
End Grid.

Lemma grid_rows_witness :
  let rows := [{| record := ibuprofen; token := recalledToken |}] in
  ledgerOn lowerAscii mockLedger (js "  ") (js "recalled") = Some rows
  /\ sublist (List.map record rows) mockLedger
  /\ Forall (fun row => encodeToken (record row) = Some (token row)
                        /\ (js "recalled" <> js "all" ->
                            status (record row) = js "recalled")) rows
  /\ (trim (js "  ") = [] -> js "recalled" = js "all" ->
      List.map record rows = mockLedger).
Proof.
  intros rows.
  assert (H : ledgerOn lowerAscii mockLedger (js "  ") (js "recalled")
              = Some rows) by (vm_compute; reflexivity).
  split; [exact H|].
  exact (grid_rows lowerAscii mockLedger (js "  ") (js "recalled") rows H).
Defined.

Lemma longer_query_narrows_witness :
  let rows_long := [{| record := paracetamol; token := demoToken |}] in
  includes (lowerAscii (js "Parac")) (lowerAscii (js "ARA")) = true
  /\ trim (js "Parac") <> []
  /\ ledgerOn lowerAscii mockLedger (js "Parac") (js "all") = Some rows_long
  /\ exists rows_short,
      ledgerOn lowerAscii mockLedger (js "ARA") (js "all") = Some rows_short
      /\ forall row, In row rows_long -> In row rows_short.
Proof.
  intros rows_long.
  assert (H1 : includes (lowerAscii (js "Parac")) (lowerAscii (js "ARA"))
               = true) by reflexivity.
  assert (H2 : trim (js "Parac") <> []) by discriminate.
  assert (H3 : ledgerOn lowerAscii mockLedger (js "Parac") (js "all")
               = Some rows_long) by (vm_compute; reflexivity).
  repeat (split; [assumption|]).
  exact (longer_query_narrows lowerAscii mockLedger (js "ARA") (js "Parac")
           (js "all") rows_long H1 H2 H3).
Defined.

Lemma shown_tokens_verify_witness :
  let rows := [{| record := ibuprofen; token := recalledToken |}] in
  distinctTriples mockLedger
  /\ ledgerOn lowerAscii mockLedger (js "i220") (js "all") = Some rows
  /\ (forall row, In row rows ->
        exists st',
          verifyOn mockLedger (utcHost 0) (token row) initialState = Some st'
          /\ (verifyResult st' ≫= data) = Some (record row))
  /\ (forall first rest, rows = first :: rest ->
        exists st',
          verifyOn mockLedger (utcHost 0) (autofill rows []) initialState
          = Some st'
          /\ (verifyResult st' ≫= data) = Some (record first))
  /\ (forall typed, typed <> [] -> autofill rows typed = typed).
Proof.
  intros rows.
  assert (H : ledgerOn lowerAscii mockLedger (js "i220") (js "all")
              = Some rows) by (vm_compute; reflexivity).
  split; [exact mockLedger_distinct|]. split; [exact H|].
  exact (shown_tokens_verify lowerAscii mockLedger (js "i220") (js "all")
           rows (utcHost 0) initialState mockLedger_distinct H).
Defined.

Lemma search_ignores_case_witness :
  (forall s, isAscii s -> lowerAscii s = lowerAscii s)
  /\ isAscii (js "cetirizine") /\ isAscii (js "CetiRIZINE")
  /\ lowerAscii (js "cetirizine") = lowerAscii (js "CetiRIZINE")
  /\ ledgerOn lowerAscii mockLedger (js "cetirizine") (js "active")
     = ledgerOn lowerAscii mockLedger (js "CetiRIZINE") (js "active").
Proof.
  assert (H0 : forall s, isAscii s -> lowerAscii s = lowerAscii s)
    by reflexivity.
  assert (Ha : forall s, forallb (fun c => c <? 128) s = true -> isAscii s).
  { intros s Hs. apply List.Forall_forall. intros c Hc.
    rewrite forallb_forall in Hs. apply N.ltb_lt, Hs, Hc. }
  assert (H1 : isAscii (js "cetirizine")) by (apply Ha; reflexivity).
  assert (H2 : isAscii (js "CetiRIZINE")) by (apply Ha; reflexivity).
  assert (H3 : lowerAscii (js "cetirizine") = lowerAscii (js "CetiRIZINE"))
    by reflexivity.
  repeat (split; [assumption|]).
  exact (search_ignores_case lowerAscii H0 mockLedger _ _ (js "active")
           H1 H2 H3).
Defined.

(** The grid of the component as it first renders, and the grid over a
    source that holds one record [encodeToken] cannot handle. *)
Example first_render :
  (ledger lowerAscii [] (js "all") ≫= fun rows => Some (List.map record rows))
  = Some mockLedger.
Proof. vm_compute. reflexivity. Qed.

Example one_bad_record_breaks_the_grid :
  ledgerOn lowerAscii (mockLedger ++ [devanagariRow]) (js "MED-001") (js "all")
  = None.
Proof. vm_compute. reflexivity. Qed.
